(** * model_perftest: the benchmark driver of catboost/tools/model_perftest

    A shallow embedding of [catboost/tools/model_perftest/lib/main.cpp]:
    the timing aggregator [TTimingResult], the results registry [TResults],
    the canon validator [TCanonData] and the driver [DoMain] / [main].

    Conventions.
    - [size_t] values are [Z] in [0, 2^64); products and differences are
      written with their wrap-around ([size_t_mul], [size_t_sub]).
    - [double] and [float] values are IEEE 754 binary64 / binary32 numbers,
      represented by [spec_float] and computed with the operations of
      [SpecFloat] at [prec = 53, emax = 1024] (resp. [24, 128]).
    - [TMap<TString, _>] is a list of bindings kept in ascending key order,
      which is the order in which the source iterates over it.
    - Exceptions are explicit: a call returns a [status] next to its state
      and its output streams. *)

From Stdlib Require Import ZArith List String Ascii Bool Lia.
From Stdlib Require Import SpecFloat.
Import ListNotations.
Open Scope string_scope.
Open Scope list_scope.
Open Scope Z_scope.

Set Implicit Arguments.

(** ** Machine integers *)

Definition size_t_modulus : Z := 2 ^ 64.

Definition size_t_mul (a b : Z) : Z := (a * b) mod size_t_modulus.
Definition size_t_sub (a b : Z) : Z := (a - b) mod size_t_modulus.

(** [Max<size_t>()], the default of [TCMDOptions::BlockSize]. *)
Definition Max_size_t : Z := size_t_modulus - 1.

(** [Min<int>()], the initial value of [biggestPriority]. *)
Definition Min_int : Z := - 2 ^ 31.
Definition Max_int : Z := 2 ^ 31 - 1.

Definition is_size_t (n : Z) : Prop := 0 <= n < size_t_modulus.
Definition is_ui32 (n : Z) : Prop := 0 <= n < 2 ^ 32.
Definition is_int (n : Z) : Prop := Min_int <= n <= Max_int.

(** The index range of [for (size_t i = 0; i < n; ++i)]. *)
Definition indices (n : Z) : list Z := map Z.of_nat (seq 0 (Z.to_nat n)).

(** [for (size_t i = 0; i < n; ++i) body(i)] over a state [St]. *)
Definition for_loop {St : Type} (n : Z) (body : Z -> St -> St) (s : St) : St :=
  fold_left (fun acc i => body i acc) (indices n) s.

(** ** Vectors *)

(** [v[i]] for a [TVector]; [d] stands for the value read out of range,
    which the source never does (see the in-range lemmas below). *)
Definition vec_get {A : Type} (d : A) (v : list A) (i : Z) : A :=
  nth (Z.to_nat i) v d.

(** [v[i] = x]; a write out of range leaves the model unchanged. *)
Fixpoint set_nth {A : Type} (n : nat) (x : A) (v : list A) : list A :=
  match v, n with
  | [], _ => []
  | _ :: t, O => x :: t
  | h :: t, S n' => h :: set_nth n' x t
  end.

Definition vec_set {A : Type} (v : list A) (i : Z) (x : A) : list A :=
  if i <? 0 then v else set_nth (Z.to_nat i) x v.

(** [TVector<A> v(n)] and [v.resize(n)] on an empty vector: [n] copies of
    the value-initialised element. *)
Definition vec_make {A : Type} (d : A) (n : Z) : list A :=
  repeat d (Z.to_nat n).

(** ** Floating point *)

Definition double : Type := spec_float.
Definition float : Type := spec_float.

Module Double.
Definition prec : Z := 53.
Definition emax : Z := 1024.

Definition zero : double := S754_zero false.
Definition add : double -> double -> double := SFadd prec emax.
Definition sub : double -> double -> double := SFsub prec emax.
Definition div : double -> double -> double := SFdiv prec emax.
Definition abs : double -> double := SFabs.
Definition ltb : double -> double -> bool := SFltb.

(** Conversion of an integer ([size_t], or an integer literal). *)
Definition of_Z (n : Z) : double := binary_normalize prec emax n 0 false.

(** Conversion [double -> float], rounding to nearest even. *)
Definition to_float (d : double) : float :=
  match d with
  | S754_finite s m e => binary_normalize 24 128 (cond_Zopp s (Zpos m)) e s
  | _ => d
  end.

(** Promotion [float -> double] (exact). *)
Definition of_float (f : float) : double :=
  match f with
  | S754_finite s m e => binary_normalize prec emax (cond_Zopp s (Zpos m)) e s
  | _ => f
  end.

(** The literal [1e-6]: the double nearest to 1/10^6, which is what a
    correctly rounded division of the two exact operands returns. *)
Definition literal_1e_6 : double := div (of_Z 1) (of_Z 1000000).
End Double.

(** ** Outcomes of a call *)

Inductive exception : Type :=
| yexception (what : string)
| out_of_range (what : string).

Definition what (e : exception) : string :=
  match e with
  | yexception w => w
  | out_of_range w => w
  end.

(** How a call ends: it returns, it throws, or it has left the defined
    behaviour of the language (an access out of range, [*end()]). *)
Inductive status : Type :=
| Returned
| Thrown (e : exception)
| Undefined.

(** ** The ordered map [TMap<TString, V>] *)

Section TMap.
Variable V : Type.

Definition TMap : Type := list (string * V).

Fixpoint TMap_find (m : TMap) (k : string) : option V :=
  match m with
  | [] => None
  | (k', v) :: rest => if String.eqb k k' then Some v else TMap_find rest k
  end.

(** [m[k] = f(m[k])], where a missing key is first inserted (at its place
    in key order) with the default value [d]. *)
Fixpoint TMap_upsert (m : TMap) (k : string) (d : V) (f : V -> V) : TMap :=
  match m with
  | [] => [(k, f d)]
  | (k', v) :: rest =>
      match String.compare k k' with
      | Eq => (k', f v) :: rest
      | Lt => (k, f d) :: m
      | Gt => (k', v) :: TMap_upsert rest k d f
      end
  end.

Definition TMap_keys (m : TMap) : list string := map fst m.
End TMap.

(** ** Output streams *)

Definition tab : string := String (ascii_of_nat 9) EmptyString.

(** What is written to a logging stream with [<<]. *)
Inductive LogItem : Type :=
| LStr (s : string)
| LDouble (d : double)
| LSize (n : Z)
| Endl.

(** ** Timing aggregator: [struct TTimingResult] *)

Record TTimingResult : Type := { Times : list double }.

Definition TTimingResult_empty : TTimingResult := {| Times := [] |}.

Definition Add (val : double) (t : TTimingResult) : TTimingResult :=
  {| Times := Times t ++ [val] |}.

(** [MinElement(begin, end)]: the first smallest element; [None] is the
    iterator [end], returned for an empty range. *)
Fixpoint MinElement_from (smallest : double) (rest : list double) : double :=
  match rest with
  | [] => smallest
  | x :: r => MinElement_from (if Double.ltb x smallest then x else smallest) r
  end.

Definition MinElement (l : list double) : option double :=
  match l with
  | [] => None
  | x :: r => Some (MinElement_from x r)
  end.

Fixpoint MaxElement_from (largest : double) (rest : list double) : double :=
  match rest with
  | [] => largest
  | x :: r => MaxElement_from (if Double.ltb largest x then x else largest) r
  end.

Definition MaxElement (l : list double) : option double :=
  match l with
  | [] => None
  | x :: r => Some (MaxElement_from x r)
  end.

(** [Min()] and [Max()] dereference the iterator: [None] is [*end()]. *)
Definition Min (t : TTimingResult) : option double := MinElement (Times t).
Definition Max (t : TTimingResult) : option double := MaxElement (Times t).

Definition Mean (t : TTimingResult) : double :=
  let sum := fold_left Double.add (Times t) Double.zero in
  Double.div sum (Double.of_Z (Z.of_nat (List.length (Times t)))).

(** One line [label value [ratio]] of [TTimingResult::Output]. *)
Definition stat_line (label : string) (mine : double) (ref : option double)
  : list LogItem :=
  [LStr (String.append label tab); LDouble mine]
  ++ match ref with
     | Some r => [LStr tab; LDouble (Double.div mine r)]
     | None => []
     end
  ++ [Endl].

(** [Output(ref)]; [None] when a [Min()] or [Max()] is taken of no sample. *)
Definition Output (t : TTimingResult) (ref : option TTimingResult)
  : option (list LogItem) :=
  match Min t, Max t with
  | Some myMin, Some myMax =>
      match ref with
      | None =>
          Some (stat_line "min:" myMin None ++ stat_line "max:" myMax None
                ++ stat_line "mean:" (Mean t) None)
      | Some r =>
          match Min r, Max r with
          | Some rMin, Some rMax =>
              Some (stat_line "min:" myMin (Some rMin)
                    ++ stat_line "max:" myMax (Some rMax)
                    ++ stat_line "mean:" (Mean t) (Some (Mean r)))
          | _, _ => None
          end
      end
  | _, _ => None
  end.

(** The JSON object [{"min": _, "max": _, "mean": _}]. *)
Record TJsonStats : Type := { json_min : double; json_max : double; json_mean : double }.

Definition GetJsonValue (t : TTimingResult) : option TJsonStats :=
  match Min t, Max t with
  | Some mn, Some mx => Some {| json_min := mn; json_max := mx; json_mean := Mean t |}
  | _, _ => None
  end.

(** ** Results registry: [struct TResults] *)

Record TResults : Type := {
  Results : TMap TTimingResult;
  BaseResultName : string
}.

Definition TResults_empty : TResults :=
  {| Results := []; BaseResultName := EmptyString |}.

Definition set_BaseResultName (name : string) (r : TResults) : TResults :=
  {| Results := Results r; BaseResultName := name |}.

Definition UpdateResult (name : string) (time : double) (r : TResults) : TResults :=
  {| Results := TMap_upsert (Results r) name TTimingResult_empty (Add time);
     BaseResultName := BaseResultName r |}.

(** What [OutputResults] leaves behind: the lines sent to the info log, the
    JSON document written to [results.json] ([None]: the file was not
    written), and how the call ended. *)
Record TReport : Type := {
  info_log : list LogItem;
  results_json : option (list (string * TJsonStats));
  report_status : status
}.

Definition report_header : list LogItem :=
  [LStr (String.concat tab ["name"; "value"; "diff"]%string); Endl].

Definition name_line (name : string) : list LogItem :=
  [LStr name; LStr tab; Endl].

(** The loop [for (const auto& [key, value] : Results)] of [OutputResults]. *)
Fixpoint render_others (base : string) (ref : option TTimingResult)
    (m : TMap TTimingResult) : option (list LogItem * list (string * TJsonStats)) :=
  match m with
  | [] => Some ([], [])
  | (key, value) :: rest =>
      if String.eqb key base then render_others base ref rest
      else
        match Output value ref, GetJsonValue value, render_others base ref rest with
        | Some l, Some j, Some (ls, js) =>
            Some (name_line key ++ l ++ ls, (key, j) :: js)
        | _, _, _ => None
        end
  end.

(** The text of the [std::out_of_range] that [TMap::at] (that is,
    [std::map::at]) throws for a missing key.  It is the standard
    library's own text, not the key; libstdc++'s is taken here, and no
    statement below depends on which text it is. *)
Definition map_at_what : string := "map::at".

Definition OutputResults (r : TResults) : TReport :=
  let base := BaseResultName r in
  if String.eqb base EmptyString then
    match render_others base None (Results r) with
    | Some (ls, js) =>
        {| info_log := report_header ++ ls; results_json := Some js;
           report_status := Returned |}
    | None =>
        {| info_log := report_header; results_json := None;
           report_status := Undefined |}
    end
  else
    match TMap_find (Results r) base with
    | None =>
        (* [Results.at(BaseResultName)] throws *)
        {| info_log := report_header ++ name_line base; results_json := None;
           report_status := Thrown (out_of_range map_at_what) |}
    | Some ref =>
        match Output ref (Some ref), GetJsonValue ref,
              render_others base (Some ref) (Results r) with
        | Some l, Some j, Some (ls, js) =>
            {| info_log := report_header ++ name_line base ++ l ++ ls;
               results_json := Some ((base, j) :: js);
               report_status := Returned |}
        | _, _, _ =>
            {| info_log := report_header ++ name_line base; results_json := None;
               report_status := Undefined |}
        end
    end.

(** ** Canon validator: [class TCanonData] *)

Module Canon.
(** [static constexpr float Epsilon = 1e-6;] *)
Definition Epsilon : float := Double.to_float Double.literal_1e_6.

Record TCanonData : Type := { Results : list (list double) }.

(** [TCanonData(size_t blockCount)] *)
Definition Build (blockCount : Z) : TCanonData :=
  {| Results := vec_make [] blockCount |}.

(** The arguments of [LabeledDump] sent to [Cerr]. *)
Record TDiagnostic : Type := {
  diag_blockId : Z;
  diag_i : Z;
  diag_result : double;
  diag_ref : double;
  diag_delta : double
}.

(** [abs(x - r) > Epsilon], with [Epsilon] promoted to [double]. *)
Definition exceeds (x r : double) : bool :=
  Double.ltb (Double.of_float Epsilon) (Double.abs (Double.sub x r)).

(** The loop over [i] of [CheckOrSet], from index [i] on; the two vectors
    have the same size when it is reached. *)
Fixpoint compare_from (blockId i : Z) (blockResult ref : list double)
  : list TDiagnostic :=
  match blockResult, ref with
  | x :: xs, r :: rs =>
      (if exceeds x r
       then [{| diag_blockId := blockId; diag_i := i; diag_result := x;
                diag_ref := r; diag_delta := Double.sub x r |}]
       else [])
      ++ compare_from blockId (i + 1) xs rs
  | _, _ => []
  end.

Definition is_empty {A : Type} (v : list A) : bool :=
  match v with [] => true | _ => false end.

(** [CheckOrSet(blockId, blockResult)]: the validator after the call, what
    was sent to [Cerr], and how the call ended. *)
Definition CheckOrSet (c : TCanonData) (blockId : Z) (blockResult : list double)
  : TCanonData * list TDiagnostic * status :=
  match nth_error (Results c) (Z.to_nat blockId) with
  | None => (c, [], Undefined)
  | Some stored =>
      let c' :=
        if is_empty stored
        then {| Results := vec_set (Results c) blockId blockResult |}
        else c in
      let ref := vec_get [] (Results c') blockId in
      if Z.of_nat (List.length blockResult) =? Z.of_nat (List.length ref)
      then (c', compare_from blockId 0 blockResult ref, Returned)
      else (c', [], Thrown (yexception "blockResult.size() == ref.size()"))
  end.
End Canon.

Arguments Canon.exceeds : simpl never.
Arguments Double.sub : simpl never.
Arguments Double.add : simpl never.
Arguments Double.div : simpl never.
Arguments Double.of_Z : simpl never.

(** ** The module interface (perftest_module.h) *)

Inductive EPerftestModuleDataLayout : Type :=
| ObjectsFirst
| FeaturesFirst.

(** [TConstArrayRef<float>]: a pointer and a size, owning nothing.  The
    pointer is what it reads at each offset. *)
Record TConstArrayRef : Type := {
  data : Z -> float;
  size : Z
}.

Definition float_zero : float := S754_zero false.

Definition TConstArrayRef_empty : TConstArrayRef :=
  {| data := fun _ => float_zero; size := 0 |}.

(** [p + k] on a pointer. *)
Definition ptr_add (p : Z -> float) (k : Z) : Z -> float := fun i => p (k + i).

(** [MakeArrayRef<const float>(p, n)] *)
Definition MakeArrayRef_ptr (p : Z -> float) (n : Z) : TConstArrayRef :=
  {| data := p; size := n |}.

(** [MakeArrayRef(v)] for a vector [v] *)
Definition MakeArrayRef (v : list float) : TConstArrayRef :=
  {| data := vec_get float_zero v; size := Z.of_nat (List.length v) |}.

(** What is sent to [Cerr]. *)
Inductive CerrItem : Type :=
| FailedToConstruct (key : string) (message : string)
| ExceptionMessage (message : string).

Section Driver.
(** Everything a call of [Do] can read or change besides its arguments:
    the clock and the scratch state of the modules. *)
Variable World : Type.

(** The loaded model, [TFullModel]. *)
Variable TFullModel : Type.

(** A constructed variant, [IPerftestModule].  The three queries are
    constant and return; [Do] returns the elapsed time of the computation
    it wraps. *)
Record IPerftestModule : Type := {
  GetName : EPerftestModuleDataLayout -> string;
  SupportsLayout : EPerftestModuleDataLayout -> bool;
  GetComparisonPriority : EPerftestModuleDataLayout -> Z;
  Do : EPerftestModuleDataLayout -> list TConstArrayRef -> World -> double * World
}.

(** [TPerftestModuleFactory]: the registered keys, in the iteration order
    of the [TSet] that [GetRegisteredKeys] fills, and [Construct], which
    returns a module or throws. *)
Record TPerftestModuleFactory : Type := {
  GetRegisteredKeys : list string;
  Construct : string -> TFullModel -> exception + IPerftestModule
}.

(** The loaded dataset.  [RawObjectsData] is the result of the
    [dynamic_cast] ([None]: a quantized pool); where present it is
    [getFeatureDataBeginPtr]: the pointer to the values of a feature. *)
Record TDataProvider : Type := {
  GetObjectCount : Z;
  GetFeatureCount : Z;
  RawObjectsData : option (Z -> Z -> float)
}.

Record TCMDOptions : Type := {
  BlockSize : Z;
  RepetitionCount : Z
}.

(** *** Step 1: the blocks (lines 186-219) *)

Definition to_ui32 (n : Z) : Z := n mod 2 ^ 32.

Definition effectiveBlockSize (options : TCMDOptions) (dataset : TDataProvider) : Z :=
  Z.min (BlockSize options) (GetObjectCount dataset).

Definition blockCount_of (BlockSize' docsCount : Z) : Z := docsCount / BlockSize'.

Definition blockStart_of (BlockSize' blockId : Z) : Z := size_t_mul BlockSize' blockId.

Definition docsInCurrBlock_of (BlockSize' docsCount blockId : Z) : Z :=
  Z.min BlockSize' (size_t_sub docsCount (size_t_mul BlockSize' blockId)).

Record TBlocks : Type := {
  nonTransposedPool : list (list (list float));
  nonTranspFactorsRef : list (list TConstArrayRef);
  transpFactorsRef : list (list TConstArrayRef)
}.

Section Blocks.
Variable getFeatureDataBeginPtr : Z -> Z -> float.
Variables BlockSize' docsCount factorsCount : Z.

(** The loop over [i] filling [transpFactorsRef[blockId]]. *)
Definition build_transp (blockStart docsInCurrBlock : Z) : list TConstArrayRef :=
  for_loop factorsCount
    (fun i v =>
       vec_set v i
         (MakeArrayRef_ptr (ptr_add (getFeatureDataBeginPtr (to_ui32 i)) blockStart)
            docsInCurrBlock))
    (vec_make TConstArrayRef_empty factorsCount).

(** The loop over [featureId] filling [docFacs]. *)
Definition build_docFacs (blockStart docId : Z) : list float :=
  for_loop factorsCount
    (fun featureId docFacs =>
       vec_set docFacs featureId
         (getFeatureDataBeginPtr (to_ui32 featureId) (blockStart + docId)))
    (vec_make float_zero factorsCount).

(** The loop over [docId] filling [nonTransposedPool[blockId]] and
    [nonTranspFactorsRef[blockId]]. *)
Definition build_nonTransp (blockStart docsInCurrBlock : Z)
  : list (list float) * list TConstArrayRef :=
  for_loop docsInCurrBlock
    (fun docId st =>
       let docFacs := build_docFacs blockStart docId in
       (vec_set (fst st) docId docFacs,
        vec_set (snd st) docId (MakeArrayRef docFacs)))
    (vec_make [] docsInCurrBlock, vec_make TConstArrayRef_empty docsInCurrBlock).

(** The body of the loop over [blockId].  [CB_ENSURE(docsInCurrBlock >= 0)]
    holds of any [size_t] and is left out. *)
Definition build_block (blockId : Z) (b : TBlocks) : TBlocks :=
  let blockStart := blockStart_of BlockSize' blockId in
  let docsInCurrBlock := docsInCurrBlock_of BlockSize' docsCount blockId in
  let transp := build_transp blockStart docsInCurrBlock in
  let nonTransp := build_nonTransp blockStart docsInCurrBlock in
  {| nonTransposedPool := vec_set (nonTransposedPool b) blockId (fst nonTransp);
     nonTranspFactorsRef := vec_set (nonTranspFactorsRef b) blockId (snd nonTransp);
     transpFactorsRef := vec_set (transpFactorsRef b) blockId transp |}.

Definition build_blocks (blockCount : Z) : TBlocks :=
  for_loop blockCount build_block
    {| nonTransposedPool := vec_make [] blockCount;
       nonTranspFactorsRef := vec_make [] blockCount;
       transpFactorsRef := vec_make [] blockCount |}.
End Blocks.

(** *** Step 2: construction of the modules and the baseline (lines 223-243) *)

Record TDriverState : Type := {
  modules : list IPerftestModule;
  biggestPriority : Z;
  results : TResults;
  cerr : list CerrItem
}.

Definition consider_baseline (m : IPerftestModule)
    (layout : EPerftestModuleDataLayout) (st : TDriverState) : TDriverState :=
  if GetComparisonPriority m layout >? biggestPriority st then
    {| modules := modules st;
       biggestPriority := GetComparisonPriority m layout;
       results := set_BaseResultName (GetName m layout) (results st);
       cerr := cerr st |}
  else st.

(** The body of the loop over the keys: the [try] block and its handlers. *)
Definition construct_step (factory : TPerftestModuleFactory) (model : TFullModel)
    (st : TDriverState) (key : string) : TDriverState :=
  match Construct factory key model with
  | inr m =>
      let st1 := {| modules := modules st ++ [m];
                    biggestPriority := biggestPriority st;
                    results := results st;
                    cerr := cerr st |} in
      consider_baseline m FeaturesFirst (consider_baseline m ObjectsFirst st1)
  | inl e =>
      {| modules := modules st;
         biggestPriority := biggestPriority st;
         results := results st;
         cerr := cerr st ++ [FailedToConstruct key (what e)] |}
  end.

Definition construct_modules (factory : TPerftestModuleFactory) (model : TFullModel)
    (keys : list string) (st : TDriverState) : TDriverState :=
  fold_left (construct_step factory model) keys st.

Definition initial_state : TDriverState :=
  {| modules := []; biggestPriority := Min_int; results := TResults_empty; cerr := [] |}.

(** *** Step 3: the timed loop (lines 244-263) *)

(** One iteration of a loop over [blockId]: the call of [Do] on the view
    of the block and the [UpdateResult] that records its time under
    [name]. *)
Definition run_block (name : string) (m : IPerftestModule)
    (layout : EPerftestModuleDataLayout) (views : list (list TConstArrayRef))
    (blockId : Z) (st : TResults * World) : TResults * World :=
  let (time, w) := Do m layout (vec_get [] views blockId) (snd st) in
  (UpdateResult name time (fst st), w).

(** The body of the loop over the modules.  Both loops over the blocks
    record under [GetName(ObjectsFirst)] (lines 249 and 257). *)
Definition run_module (blockCount : Z) (blocks : TBlocks)
    (st : TResults * World) (m : IPerftestModule) : TResults * World :=
  let st1 :=
    if SupportsLayout m ObjectsFirst
    then for_loop blockCount
           (run_block (GetName m ObjectsFirst) m ObjectsFirst
              (nonTranspFactorsRef blocks)) st
    else st in
  if SupportsLayout m FeaturesFirst
  then for_loop blockCount
         (run_block (GetName m ObjectsFirst) m FeaturesFirst
            (transpFactorsRef blocks)) st1
  else st1.

Definition run_repetition (blockCount : Z) (blocks : TBlocks)
    (mods : list IPerftestModule) (st : TResults * World) : TResults * World :=
  fold_left (run_module blockCount blocks) mods st.

Definition run_all (repetitions blockCount : Z) (blocks : TBlocks)
    (mods : list IPerftestModule) (st : TResults * World) : TResults * World :=
  for_loop repetitions (fun _ => run_repetition blockCount blocks mods) st.

(** *** [DoMain] *)

(** What a run leaves behind. *)
Record TRun : Type := {
  run_status : status;
  run_cerr : list CerrItem;
  run_debug_log : list LogItem;
  run_report : list LogItem;
  run_results_json : option (list (string * TJsonStats));
  run_results : TResults;
  run_blocks : option TBlocks;
  run_modules : list IPerftestModule;
  run_canonData : option Canon.TCanonData;
  run_world : World
}.

Definition aborted (e : exception) (w : World) : TRun :=
  {| run_status := Thrown e; run_cerr := []; run_debug_log := [];
     run_report := []; run_results_json := None; run_results := TResults_empty;
     run_blocks := None; run_modules := []; run_canonData := None;
     run_world := w |}.

(** [DoMain], from the loaded model and dataset on (the parsing of the
    options and the reading of the files are taken as done). *)
Definition DoMain (options : TCMDOptions) (model : TFullModel)
    (dataset : TDataProvider) (factory : TPerftestModuleFactory) (w : World) : TRun :=
  match RawObjectsData dataset with
  | None => aborted (yexception "Not supported for quantized pools") w
  | Some getFeatureDataBeginPtr =>
      let BlockSize' := effectiveBlockSize options dataset in
      if negb (BlockSize' >? 0) then aborted (yexception "Empty pool") w
      else
        let docsCount := GetObjectCount dataset in
        let blockCount := blockCount_of BlockSize' docsCount in
        let factorsCount := GetFeatureCount dataset in
        let blocks :=
          build_blocks getFeatureDataBeginPtr BlockSize' docsCount factorsCount
            blockCount in
        let canonData := Canon.Build blockCount in
        let st := construct_modules factory model (GetRegisteredKeys factory)
                    initial_state in
        let (res, w') :=
          run_all (RepetitionCount options) blockCount blocks (modules st)
            (results st, w) in
        let report := OutputResults res in
        {| run_status := report_status report;
           run_cerr := cerr st;
           run_debug_log := [LStr "Blocks count: "; LSize blockCount;
                             LStr " block size: "; LSize BlockSize'; Endl];
           run_report := info_log report;
           run_results_json := results_json report;
           run_results := res;
           run_blocks := Some blocks;
           run_modules := modules st;
           run_canonData := Some canonData;
           run_world := w' |}
  end.

(** *** [main] *)

(** The process: its exit code ([None] where the run has no defined
    behaviour), what it sent to [Cerr], its report and [results.json]. *)
Record TProcess : Type := {
  exit_code : option Z;
  process_cerr : list CerrItem;
  process_report : list LogItem;
  process_results_json : option (list (string * TJsonStats))
}.

Definition main (options : TCMDOptions) (model : TFullModel)
    (dataset : TDataProvider) (factory : TPerftestModuleFactory) (w : World)
  : TProcess :=
  let run := DoMain options model dataset factory w in
  match run_status run with
  | Returned =>
      {| exit_code := Some 0; process_cerr := run_cerr run;
         process_report := run_report run;
         process_results_json := run_results_json run |}
  | Thrown e =>
      {| exit_code := Some (-1);
         process_cerr := run_cerr run ++ [ExceptionMessage (what e)];
         process_report := run_report run;
         process_results_json := run_results_json run |}
  | Undefined =>
      {| exit_code := None; process_cerr := run_cerr run;
         process_report := run_report run;
         process_results_json := run_results_json run |}
  end.
End Driver.

(** ** Auxiliary definitions for the statements *)

Definition diagnostic_at (blockId : Z) (v ref : list double) (i : Z)
  : Canon.TDiagnostic :=
  {| Canon.diag_blockId := blockId;
     Canon.diag_i := i;
     Canon.diag_result := vec_get Double.zero v i;
     Canon.diag_ref := vec_get Double.zero ref i;
     Canon.diag_delta :=
       Double.sub (vec_get Double.zero v i) (vec_get Double.zero ref i) |}.

(** The validator after a call, and after a sequence of calls (whatever way
    each of them ends). *)
Definition canon_after (c : Canon.TCanonData) (call : Z * list double)
  : Canon.TCanonData :=
  fst (fst (Canon.CheckOrSet c (fst call) (snd call))).

Definition canon_after_all (c : Canon.TCanonData) (calls : list (Z * list double))
  : Canon.TCanonData :=
  fold_left canon_after calls c.

Definition reference (c : Canon.TCanonData) (blockId : Z) : option (list double) :=
  nth_error (Canon.Results c) (Z.to_nat blockId).

(** The threshold as the specification words it: [10^-6 < |d|], decided on
    the exact value of [d] (a NaN is above nothing). *)
Definition above_1e_6 (d : double) : bool :=
  match d with
  | S754_zero _ | S754_nan => false
  | S754_infinity _ => true
  | S754_finite _ m e => if e <? 0 then 2 ^ (- e) <? Zpos m * 10 ^ 6 else true
  end.

(** A validator of one block whose reference is the vector [[0.0]]. *)
Definition canon_zero : Canon.TCanonData := {| Canon.Results := [[Double.zero]] |}.

Definition double_one : double := Double.of_Z 1.

(** Document [d] lies in block [blockId]: in the range of documents that
    the views of the block cover. *)
Definition in_block (BlockSize' docsCount blockId d : Z) : Prop :=
  blockStart_of BlockSize' blockId <= d
  < blockStart_of BlockSize' blockId + docsInCurrBlock_of BlockSize' docsCount blockId.

(** ** Example inputs *)

(** A clock: the world is the number of calls of [Do] made so far, and a
    call takes as many seconds as its rank. *)
Definition tick (w : nat) : double * nat := (Double.of_Z (Z.of_nat (S w)), S w).

Definition example_module (name : string) (priority : Z) : IPerftestModule nat :=
  {| GetName := fun layout =>
       match layout with
       | ObjectsFirst => name
       | FeaturesFirst => String.append name "_transposed"
       end;
     SupportsLayout := fun _ => true;
     GetComparisonPriority := fun _ => priority;
     Do := fun _ _ w => tick w |}.

(** Three variants [A], [B] and [C] of priorities 5, 7 and 3. *)
Definition factory_ABC : TPerftestModuleFactory nat unit :=
  {| GetRegisteredKeys := ["A"; "B"; "C"];
     Construct := fun key _ =>
       if String.eqb key "A" then inr (example_module "A" 5)
       else if String.eqb key "B" then inr (example_module "B" 7)
       else inr (example_module "C" 3) |}.

(** The same, where the construction of [B] throws. *)
Definition factory_broken_B : TPerftestModuleFactory nat unit :=
  {| GetRegisteredKeys := ["A"; "B"; "C"];
     Construct := fun key _ =>
       if String.eqb key "A" then inr (example_module "A" 5)
       else if String.eqb key "B" then inl (yexception "unsupported model")
       else inr (example_module "C" 3) |}.

(** One variant. *)
Definition factory_A : TPerftestModuleFactory nat unit :=
  {| GetRegisteredKeys := ["A"];
     Construct := fun _ _ => inr (example_module "A" 5) |}.

(** A pool of [docs] documents and two features; feature [f] of document
    [d] is [100 f + d]. *)
Definition example_pool (docs : Z) : TDataProvider :=
  {| GetObjectCount := docs;
     GetFeatureCount := 2;
     RawObjectsData := Some (fun f d => binary_normalize 24 128 (100 * f + d) 0 false) |}.

Definition example_options (blockSize repetitions : Z) : TCMDOptions :=
  {| BlockSize := blockSize; RepetitionCount := repetitions |}.

(** ** Auxiliary definitions for the statements about the modules *)

Section Candidates.
Variables World TFullModel : Type.

(** The (priority, display name) pairs of the modules, in the order in
    which the driver looks at them. *)
Definition candidates (mods : list (IPerftestModule World)) : list (Z * string) :=
  flat_map
    (fun m =>
       [(GetComparisonPriority m ObjectsFirst, GetName m ObjectsFirst);
        (GetComparisonPriority m FeaturesFirst, GetName m FeaturesFirst)])
    mods.

(** The priority and the name that the driver holds as the baseline. *)
Definition baseline_of (st : TDriverState World) : Z * string :=
  (biggestPriority st, BaseResultName (results st)).

(** A pass over candidates that keeps the first one above what it holds. *)
Definition keep_higher (held c : Z * string) : Z * string :=
  if fst c >? fst held then c else held.

(** The modules that the keys construct, in the order of the keys. *)
Definition constructed (factory : TPerftestModuleFactory World TFullModel)
    (model : TFullModel) (keys : list string) : list (IPerftestModule World) :=
  flat_map
    (fun key =>
       match Construct factory key model with
       | inr m => [m]
       | inl _ => []
       end)
    keys.

(** The lines of [Cerr] for the keys whose construction throws. *)
Definition construction_failures (factory : TPerftestModuleFactory World TFullModel)
    (model : TFullModel) (keys : list string) : list CerrItem :=
  flat_map
    (fun key =>
       match Construct factory key model with
       | inr _ => []
       | inl e => [FailedToConstruct key (what e)]
       end)
    keys.

Definition constructs (factory : TPerftestModuleFactory World TFullModel)
    (model : TFullModel) (key : string) : bool :=
  match Construct factory key model with
  | inr _ => true
  | inl _ => false
  end.

(** The factory without the keys whose construction throws. *)
Definition without_failures (factory : TPerftestModuleFactory World TFullModel)
    (model : TFullModel) : TPerftestModuleFactory World TFullModel :=
  {| GetRegisteredKeys := filter (constructs factory model) (GetRegisteredKeys factory);
     Construct := Construct factory |}.
End Candidates.

(** ** Auxiliary definitions for the further properties *)

(** Keys in strictly ascending order, the order of a [TMap]. *)
Fixpoint keys_ascending (keys : list string) : Prop :=
  match keys with
  | [] => True
  | k :: rest => (forall k', In k' rest -> String.compare k k' = Lt) /\ keys_ascending rest
  end.

Definition registry_sorted (r : TResults) : Prop :=
  keys_ascending (TMap_keys (Results r)).

(** The samples recorded under a name, oldest first; none for a name that
    is not a key. *)
Definition samples_of (r : TResults) (name : string) : list double :=
  match TMap_find (Results r) name with
  | Some t => Times t
  | None => []
  end.

(** Every aggregator of the registry holds a sample. *)
Definition all_sampled (r : TResults) : Prop :=
  Forall (fun kv => Times (snd kv) <> []) (Results r).

(** The registry after a sequence of [UpdateResult] calls. *)
Definition UpdateResult_all (updates : list (string * double)) (r : TResults)
  : TResults :=
  fold_left (fun acc u => UpdateResult (fst u) (snd u) acc) updates r.

(** A registry with the names [B] and [D]. *)
Definition example_registry : TResults :=
  UpdateResult "D" double_one (UpdateResult "B" Double.zero TResults_empty).

Definition double_two : double := Double.of_Z 2.

(** The names of the entries of [results.json] that [OutputResults] writes
    for a registry with the keys [keys] and the baseline name [base]. *)
Definition json_names (base : string) (keys : list string) : list string :=
  (if String.eqb base EmptyString then [] else [base])
  ++ filter (fun k => negb (String.eqb k base)) keys.

(** A registry in which the only name is the empty string. *)
Definition unnamed_registry : TResults := UpdateResult "" double_one TResults_empty.

Section Recorded.
Variable World : Type.

(** The number of timed loops over the blocks that a module runs per
    repetition: one per layout it supports. *)
Definition layouts_run (m : IPerftestModule World) : Z :=
  Z.b2z (SupportsLayout m ObjectsFirst) + Z.b2z (SupportsLayout m FeaturesFirst).

(** The number of those loops, over all the modules, that record under
    [name]: the loops of the modules whose objects-first name it is. *)
Fixpoint loops_recorded_under (name : string) (mods : list (IPerftestModule World))
  : Z :=
  match mods with
  | [] => 0
  | m :: rest =>
      (if String.eqb name (GetName m ObjectsFirst) then layouts_run m else 0)
      + loops_recorded_under name rest
  end.

(** The number of samples recorded under [name] in a state of the timed
    loop. *)
Definition recorded (name : string) (s : TResults * World) : Z :=
  Z.of_nat (List.length (samples_of (fst s) name)).
End Recorded.

(** A variant whose features-first priority is the higher one. *)
Definition module_transposed_first : IPerftestModule nat :=
  {| GetName := fun layout =>
       match layout with
       | ObjectsFirst => "T"
       | FeaturesFirst => "T_transposed"
       end;
     SupportsLayout := fun _ => true;
     GetComparisonPriority := fun layout =>
       match layout with
       | ObjectsFirst => 1
       | FeaturesFirst => 2
       end;
     Do := fun _ _ w => tick w |}.

Definition factory_T : TPerftestModuleFactory nat unit :=
  {| GetRegisteredKeys := ["T"];
     Construct := fun _ _ => inr module_transposed_first |}.

(** A quantized pool. *)
Definition quantized_pool : TDataProvider :=
  {| GetObjectCount := 10; GetFeatureCount := 2; RawObjectsData := None |}.

(** A result or a reference on which the subtraction of [CheckOrSet] gives
    a NaN: one of the two is a NaN, or both are the same infinity. *)
Definition incomparable (x r : double) : Prop :=
  x = S754_nan \/ r = S754_nan
  \/ exists s, x = S754_infinity s /\ r = S754_infinity s.

(** A validator of two blocks whose references are [[NaN; 1.0]] and [[]]. *)
Definition canon_nan : Canon.TCanonData :=
  {| Canon.Results := [[S754_nan; double_one]; []] |}.

(** The number of documents that the blocks hold: the per-document vectors
    of all the blocks. *)
Definition documents_held (blocks : TBlocks) : Z :=
  fold_right (fun block acc => Z.of_nat (List.length block) + acc) 0
    (nonTransposedPool blocks).

(** * Properties *)

(** ** Vectors and loops *)

Lemma indices_length (n : Z) : List.length (indices n) = Z.to_nat n.
Proof. unfold indices. now rewrite length_map, length_seq. Qed.

Lemma indices_succ (k : nat) :
  indices (Z.of_nat (S k)) = indices (Z.of_nat k) ++ [Z.of_nat k].
Proof.
  unfold indices. rewrite !Nat2Z.id, seq_S, map_app. reflexivity.
Qed.

Lemma in_indices (n i : Z) : In i (indices n) <-> 0 <= i < n.
Proof.
  unfold indices. rewrite in_map_iff. split.
  - intros [k [<- Hk]]. apply in_seq in Hk. lia.
  - intros Hi. exists (Z.to_nat i). split; [lia | apply in_seq; lia].
Qed.

Lemma set_nth_app {A : Type} (l : list A) (x y : A) (r : list A) :
  set_nth (List.length l) x (l ++ y :: r) = l ++ x :: r.
Proof. induction l as [|h t IH]; simpl; [reflexivity | now rewrite IH]. Qed.

Lemma nth_error_set_nth_eq {A : Type} (v : list A) (n : nat) (x : A) :
  (n < List.length v)%nat -> nth_error (set_nth n x v) n = Some x.
Proof.
  revert n; induction v as [|h t IH]; intros [|n] Hn; simpl in *; try lia.
  - reflexivity.
  - apply IH; lia.
Qed.

Lemma nth_error_set_nth_neq {A : Type} (v : list A) (n k : nat) (x : A) :
  n <> k -> nth_error (set_nth n x v) k = nth_error v k.
Proof.
  revert n k; induction v as [|h t IH]; intros [|n] [|k] Hnk; simpl;
    try reflexivity; try congruence.
  apply IH; congruence.
Qed.

Lemma vec_get_map_indices {A : Type} (d : A) (g : Z -> A) (n i : Z) :
  0 <= i < n -> vec_get d (map g (indices n)) i = g i.
Proof.
  intros Hi. unfold vec_get, indices. rewrite map_map.
  rewrite nth_indep with (d' := g (Z.of_nat 0)) by (rewrite length_map, length_seq; lia).
  rewrite (map_nth (fun k => g (Z.of_nat k)) (seq 0 (Z.to_nat n)) 0%nat).
  rewrite seq_nth by lia. f_equal. lia.
Qed.

(** A loop that assigns [g i] to the element [i] of a vector of [n] default
    elements leaves the vector [g 0, ..., g (n-1)].  The vector is seen
    through a projection [proj] of the state of the loop. *)
Lemma for_loop_fills {St A : Type} (proj : St -> list A) (d : A) (g : Z -> A)
    (body : Z -> St -> St) (n : Z) (s0 : St) :
  (forall i s, proj (body i s) = vec_set (proj s) i (g i)) ->
  proj s0 = vec_make d n ->
  proj (for_loop n body s0) = map g (indices n).
Proof.
  intros Hbody Hinit. unfold for_loop.
  assert (Hk : forall k : nat, (k <= Z.to_nat n)%nat ->
            proj (fold_left (fun acc i => body i acc) (indices (Z.of_nat k)) s0)
            = map g (indices (Z.of_nat k)) ++ repeat d (Z.to_nat n - k)).
  { induction k as [|k IH]; intros Hle.
    - simpl. rewrite Hinit. unfold vec_make. now rewrite Nat.sub_0_r.
    - rewrite indices_succ, fold_left_app. simpl. rewrite Hbody, IH by lia.
      unfold vec_set. destruct (Z.of_nat k <? 0) eqn:Hneg; [lia|].
      replace (Z.to_nat n - k)%nat with (S (Z.to_nat n - S k))%nat by lia. simpl.
      replace (Z.to_nat (Z.of_nat k)) with (List.length (map g (indices (Z.of_nat k))))
        by (rewrite length_map, indices_length; reflexivity).
      rewrite set_nth_app, map_app, <- app_assoc. reflexivity. }
  destruct (Z_le_gt_dec 0 n) as [Hn|Hn].
  - specialize (Hk (Z.to_nat n) (Nat.le_refl _)).
    rewrite Z2Nat.id in Hk by lia. rewrite Hk, Nat.sub_diag. simpl.
    now rewrite app_nil_r.
  - unfold indices. destruct n; try lia. simpl. rewrite Hinit. reflexivity.
Qed.

(** ** Floating point *)

Lemma Epsilon_value : Canon.Epsilon = S754_finite false 8796093 (-43).
Proof. vm_compute. reflexivity. Qed.

Lemma Epsilon_as_double :
  Double.of_float Canon.Epsilon = S754_finite false 4722366470946816 (-72).
Proof. vm_compute. reflexivity. Qed.

Lemma literal_1e_6_value :
  Double.literal_1e_6 = S754_finite false 4722366482869645 (-72).
Proof. vm_compute. reflexivity. Qed.

(** [x - x] is a zero, or a NaN when [x] is infinite or a NaN. *)
Lemma sub_diag (x : double) :
  Double.sub x x = S754_zero false \/ Double.sub x x = S754_nan.
Proof.
  destruct x as [s|s| |s m e].
  - left. destruct s; reflexivity.
  - right. destruct s; reflexivity.
  - right. reflexivity.
  - left. unfold Double.sub, SFsub.
    rewrite Z.sub_diag. reflexivity.
Qed.

(** A value never differs from itself by more than [Epsilon]. *)
Lemma exceeds_diag (x : double) : Canon.exceeds x x = false.
Proof.
  unfold Canon.exceeds. rewrite Epsilon_as_double.
  destruct (sub_diag x) as [-> | ->]; reflexivity.
Qed.

(** ** Canon validator *)

Lemma compare_from_In (blockId : Z) (xs rs : list double) :
  forall (i0 : Z) (d : Canon.TDiagnostic),
    In d (Canon.compare_from blockId i0 xs rs) <->
    exists k : nat,
      (k < List.length xs)%nat /\ (k < List.length rs)%nat /\
      Canon.exceeds (nth k xs Double.zero) (nth k rs Double.zero) = true /\
      d = {| Canon.diag_blockId := blockId;
             Canon.diag_i := i0 + Z.of_nat k;
             Canon.diag_result := nth k xs Double.zero;
             Canon.diag_ref := nth k rs Double.zero;
             Canon.diag_delta := Double.sub (nth k xs Double.zero) (nth k rs Double.zero) |}.
Proof.
  revert rs. induction xs as [|x xs IH]; intros rs i0 d.
  - simpl. split; [tauto | intros [k [Hk _]]; simpl in Hk; lia].
  - destruct rs as [|r rs].
    + simpl. split; [tauto | intros [k [_ [Hk _]]]; simpl in Hk; lia].
    + cbn [Canon.compare_from]. rewrite in_app_iff, IH. split.
      * intros [Hhd | [k [Hx [Hr [He Hd]]]]].
        -- destruct (Canon.exceeds x r) eqn:E; simpl in Hhd; [|tauto].
           destruct Hhd as [<- | []]. exists 0%nat. cbn [nth List.length].
           rewrite Z.add_0_r. repeat split; try lia. exact E.
        -- exists (S k). cbn [nth List.length]. repeat split; try lia; try exact He.
           rewrite Hd. f_equal. lia.
      * intros [[|k] [Hx [Hr [He Hd]]]]; cbn [nth List.length] in *.
        -- left. rewrite He. left. rewrite Hd. now rewrite Z.add_0_r.
        -- right. exists k. repeat split; try lia; try exact He.
           rewrite Hd. f_equal. lia.
Qed.

Lemma compare_from_lower (blockId : Z) (xs rs : list double) :
  forall (i0 : Z) (d : Canon.TDiagnostic),
    In d (Canon.compare_from blockId i0 xs rs) -> i0 <= Canon.diag_i d.
Proof.
  intros i0 d Hd. apply compare_from_In in Hd.
  destruct Hd as [k [_ [_ [_ ->]]]]. simpl. lia.
Qed.

Lemma compare_from_NoDup (blockId : Z) (xs rs : list double) :
  forall i0 : Z, NoDup (map Canon.diag_i (Canon.compare_from blockId i0 xs rs)).
Proof.
  revert rs. induction xs as [|x xs IH]; intros rs i0; [constructor|].
  destruct rs as [|r rs]; [constructor|].
  cbn [Canon.compare_from]. destruct (Canon.exceeds x r); simpl; [|apply IH].
  constructor; [|apply IH].
  intros Hin. apply in_map_iff in Hin. destruct Hin as [d [Hi Hd]].
  apply compare_from_lower in Hd. lia.
Qed.

(** A self-comparison reports nothing. *)
Lemma compare_from_diag (blockId : Z) (v : list double) :
  forall i0 : Z, Canon.compare_from blockId i0 v v = [].
Proof.
  induction v as [|x v IH]; intros i0; [reflexivity|].
  cbn [Canon.compare_from]. now rewrite exceeds_diag, IH.
Qed.

Lemma vec_get_set_eq {A : Type} (d : A) (v : list A) (i : Z) (x : A) :
  0 <= i -> (Z.to_nat i < List.length v)%nat -> vec_get d (vec_set v i x) i = x.
Proof.
  intros Hi Hlt. unfold vec_get, vec_set.
  destruct (i <? 0) eqn:E; [lia|].
  apply nth_error_nth. now apply nth_error_set_nth_eq.
Qed.

Lemma nth_error_vec_set_eq {A : Type} (v : list A) (i : Z) (x : A) :
  0 <= i -> (Z.to_nat i < List.length v)%nat ->
  nth_error (vec_set v i x) (Z.to_nat i) = Some x.
Proof.
  intros Hi Hlt. unfold vec_set. destruct (i <? 0) eqn:E; [lia|].
  now apply nth_error_set_nth_eq.
Qed.

Lemma nth_error_vec_set_neq {A : Type} (v : list A) (i : Z) (k : nat) (x : A) :
  0 <= i -> Z.to_nat i <> k -> nth_error (vec_set v i x) k = nth_error v k.
Proof.
  intros Hi Hne. unfold vec_set. destruct (i <? 0) eqn:E; [lia|].
  now apply nth_error_set_nth_neq.
Qed.

Lemma vec_get_nth_error {A : Type} (d : A) (v : list A) (i : Z) (x : A) :
  nth_error v (Z.to_nat i) = Some x -> vec_get d v i = x.
Proof. intros H. unfold vec_get. now apply nth_error_nth. Qed.

(** [CheckOrSet] on a block whose reference is empty. *)
Lemma CheckOrSet_unset (c : Canon.TCanonData) (blockId : Z) (v : list double) :
  0 <= blockId ->
  nth_error (Canon.Results c) (Z.to_nat blockId) = Some [] ->
  Canon.CheckOrSet c blockId v
  = ({| Canon.Results := vec_set (Canon.Results c) blockId v |}, [], Returned).
Proof.
  intros Hb Hs. unfold Canon.CheckOrSet. rewrite Hs. simpl.
  assert (Hlt : (Z.to_nat blockId < List.length (Canon.Results c))%nat)
    by (apply nth_error_Some; congruence).
  rewrite vec_get_set_eq by assumption.
  rewrite Z.eqb_refl, compare_from_diag. reflexivity.
Qed.

(** [CheckOrSet] on a block whose reference is set. *)
Lemma CheckOrSet_set (c : Canon.TCanonData) (blockId : Z) (v stored : list double) :
  nth_error (Canon.Results c) (Z.to_nat blockId) = Some stored ->
  stored <> [] ->
  Canon.CheckOrSet c blockId v
  = if Nat.eqb (List.length v) (List.length stored)
    then (c, Canon.compare_from blockId 0 v stored, Returned)
    else (c, [], Thrown (yexception "blockResult.size() == ref.size()")).
Proof.
  intros Hs Hne. unfold Canon.CheckOrSet. rewrite Hs.
  destruct stored as [|r rs]; [congruence|]. cbn [Canon.is_empty].
  rewrite (vec_get_nth_error [] _ _ Hs).
  destruct (Nat.eqb_spec (List.length v) (List.length (r :: rs))) as [E|E].
  - rewrite E, Z.eqb_refl. reflexivity.
  - destruct (Z.eqb_spec (Z.of_nat (List.length v)) (Z.of_nat (List.length (r :: rs))));
      [lia | reflexivity].
Qed.

(** A reference that is set survives any call. *)
Lemma CheckOrSet_keeps_set (c : Canon.TCanonData) (blockId : Z)
    (stored : list double) (call : Z * list double) :
  reference c blockId = Some stored -> stored <> [] ->
  reference (canon_after c call) blockId = Some stored.
Proof.
  unfold reference, canon_after. destruct call as [b v]. simpl.
  intros Hs Hne. unfold Canon.CheckOrSet.
  destruct (nth_error (Canon.Results c) (Z.to_nat b)) as [s'|] eqn:Hb; [|exact Hs].
  assert (Hc' : nth_error
            (Canon.Results
               (if Canon.is_empty s'
                then {| Canon.Results := vec_set (Canon.Results c) b v |}
                else c)) (Z.to_nat blockId) = Some stored).
  { destruct s' as [|y ys]; simpl; [|exact Hs].
    unfold vec_set. destruct (b <? 0); [exact Hs|].
    destruct (Nat.eq_dec (Z.to_nat b) (Z.to_nat blockId)) as [E|E].
    - rewrite E in Hb. congruence.
    - now rewrite nth_error_set_nth_neq. }
  destruct (_ =? _); exact Hc'.
Qed.

Lemma canon_after_all_keeps_set (calls : list (Z * list double)) :
  forall (c : Canon.TCanonData) (blockId : Z) (stored : list double),
    reference c blockId = Some stored -> stored <> [] ->
    reference (canon_after_all c calls) blockId = Some stored.
Proof.
  induction calls as [|call calls IH]; intros c blockId stored Hs Hne; [exact Hs|].
  simpl. apply IH; [|exact Hne]. now apply CheckOrSet_keeps_set.
Qed.

(** C4 (amended): on a block whose stored reference is empty, [CheckOrSet]
    stores the vector as the reference, reports nothing and returns.  On a
    block whose reference is set it leaves the validator as it is; it throws
    if and only if the sizes differ, and then reports nothing; otherwise it
    returns, whatever the values, after one diagnostic (block, index,
    observed value, reference value, delta) for each index [i] with
    [abs(v[i] - ref[i]) > Epsilon] and none for the other indices, where the
    difference is the double-precision one and [Epsilon] is the
    single-precision constant [1e-6f = 8796093 * 2^-43] promoted to double. *)
Theorem CheckOrSet_behaviour (c : Canon.TCanonData) (blockId : Z)
    (v stored : list double) :
  0 <= blockId ->
  reference c blockId = Some stored ->
  let out := Canon.CheckOrSet c blockId v in
  let diagnostics := snd (fst out) in
  Canon.Epsilon = S754_finite false 8796093 (-43)
  /\ (stored = [] ->
      reference (fst (fst out)) blockId = Some v
      /\ diagnostics = [] /\ snd out = Returned)
  /\ (stored <> [] ->
      fst (fst out) = c
      /\ ((exists e, snd out = Thrown e) <-> List.length v <> List.length stored)
      /\ (List.length v <> List.length stored -> diagnostics = [])
      /\ (List.length v = List.length stored ->
          snd out = Returned
          /\ (forall d, In d diagnostics <->
                exists i, 0 <= i < Z.of_nat (List.length v)
                  /\ Canon.exceeds (vec_get Double.zero v i)
                       (vec_get Double.zero stored i) = true
                  /\ d = diagnostic_at blockId v stored i)
          /\ NoDup (map Canon.diag_i diagnostics))).
Proof.
  intros Hb Hs out diagnostics. split; [exact Epsilon_value|]. split.
  - intros ->. subst diagnostics out. rewrite CheckOrSet_unset by assumption.
    simpl. repeat split. unfold reference. simpl.
    apply nth_error_vec_set_eq; [assumption|].
    apply nth_error_Some. unfold reference in Hs. congruence.
  - intros Hne. subst diagnostics out.
    rewrite (CheckOrSet_set c blockId v Hs Hne).
    destruct (Nat.eqb_spec (List.length v) (List.length stored)) as [E|E]; simpl.
    + split; [reflexivity|]. split.
      { split; [intros [e He]; discriminate | intros H; contradiction]. }
      split; [intros H; contradiction|]. intros _.
      split; [reflexivity|]. split; [|apply compare_from_NoDup].
      intros d. rewrite compare_from_In. split.
      * intros [k [Hx [Hr [He ->]]]]. exists (Z.of_nat k).
        unfold diagnostic_at, vec_get. rewrite Nat2Z.id. simpl.
        repeat split; try lia. exact He.
      * intros [i [Hi [He ->]]]. exists (Z.to_nat i).
        unfold diagnostic_at, vec_get in *. rewrite Z2Nat.id by lia.
        repeat split; try lia. exact He.
    + split; [reflexivity|]. split.
      { split; [intros _; exact E | intros _; eexists; reflexivity]. }
      split; [reflexivity | intros H; contradiction].
Qed.

Lemma CheckOrSet_behaviour_witness :
  0 <= 0 /\ reference canon_zero 0 = Some [Double.zero]
  /\ fst (fst (Canon.CheckOrSet canon_zero 0 [double_one])) = canon_zero.
Proof.
  split; [lia|]. split; [reflexivity|].
  destruct (@CheckOrSet_behaviour canon_zero 0 [double_one] [Double.zero])
    as [_ [_ H]]; [lia | reflexivity |].
  destruct H as [H _]; [discriminate | exact H].
Defined.

(** C4, as stated, fails: with the reference [[0.0]] and the result
    [[1e-6]] (the double nearest to 10^-6, which is below 10^-6) the
    difference is not above 10^-6, and a diagnostic is reported. *)
Lemma CheckOrSet_threshold_counterexample :
  ~ (forall (c : Canon.TCanonData) (blockId : Z) (v stored : list double) (i : Z),
       0 <= blockId -> reference c blockId = Some stored -> stored <> [] ->
       List.length v = List.length stored -> 0 <= i < Z.of_nat (List.length v) ->
       ((exists d, In d (snd (fst (Canon.CheckOrSet c blockId v)))
                   /\ Canon.diag_i d = i)
        <-> above_1e_6 (Double.sub (vec_get Double.zero v i)
                          (vec_get Double.zero stored i)) = true)).
Proof.
  intros H.
  specialize (H canon_zero 0 [Double.literal_1e_6] [Double.zero] 0).
  assert (Hab : above_1e_6 (Double.sub (vec_get Double.zero [Double.literal_1e_6] 0)
                              (vec_get Double.zero [Double.zero] 0)) = false)
    by (vm_compute; reflexivity).
  rewrite Hab in H.
  assert (Hex : exists d,
             In d (snd (fst (Canon.CheckOrSet canon_zero 0 [Double.literal_1e_6])))
             /\ Canon.diag_i d = 0).
  { eexists. split; [vm_compute; left; reflexivity | reflexivity]. }
  apply H in Hex; simpl; try lia; try reflexivity; discriminate.
Qed.

(** C9: once a call of [CheckOrSet] has stored a reference for a block (the
    first result vector seen for it, one value per document of the block),
    no later call on a block of the validator, with any result vector and
    however it ends, changes that reference. *)
Theorem reference_never_mutated (c : Canon.TCanonData) (blockId : Z)
    (v : list double) (calls : list (Z * list double)) :
  0 <= blockId ->
  reference c blockId = Some [] ->
  v <> [] ->
  Forall (fun call => 0 <= fst call < Z.of_nat (List.length (Canon.Results c))) calls ->
  let c1 := canon_after c (blockId, v) in
  reference c1 blockId = Some v
  /\ reference (canon_after_all c1 calls) blockId = Some v.
Proof.
  intros Hb Hs Hv _ c1.
  assert (H1 : reference c1 blockId = Some v).
  { subst c1. unfold canon_after. simpl. rewrite CheckOrSet_unset by assumption.
    unfold reference in *. simpl. apply nth_error_vec_set_eq; [assumption|].
    apply nth_error_Some. congruence. }
  split; [exact H1|]. now apply canon_after_all_keeps_set.
Qed.

Lemma reference_never_mutated_witness :
  0 <= 0 /\ reference (Canon.Build 1) 0 = Some [] /\ [double_one] <> []
  /\ reference
       (canon_after_all (canon_after (Canon.Build 1) (0, [double_one]))
          [(0, [Double.zero]); (0, [Double.zero; double_one])]) 0
     = Some [double_one].
Proof.
  split; [lia|]. split; [reflexivity|]. split; [discriminate|].
  apply (@reference_never_mutated (Canon.Build 1) 0 [double_one]
           [(0, [Double.zero]); (0, [Double.zero; double_one])]);
    [lia | reflexivity | discriminate |].
  repeat constructor; vm_compute; congruence.
Defined.

(** ** Block partitioning *)

Section BlockFacts.
Variables BlockSize' docsCount : Z.
Hypothesis HB : 0 < BlockSize' <= docsCount.
Hypothesis Hdocs : docsCount < size_t_modulus.

Lemma blockCount_bounds :
  blockCount_of BlockSize' docsCount * BlockSize' <= docsCount
  /\ docsCount < (blockCount_of BlockSize' docsCount + 1) * BlockSize'
  /\ 1 <= blockCount_of BlockSize' docsCount.
Proof.
  unfold blockCount_of.
  pose proof (Z.div_mod docsCount BlockSize' ltac:(lia)) as Hdm.
  pose proof (Z.mod_pos_bound docsCount BlockSize' ltac:(lia)) as Hm.
  assert (1 <= docsCount / BlockSize') by (apply Z.div_le_lower_bound; lia).
  nia.
Qed.

Lemma blockStart_exact (blockId : Z) :
  0 <= blockId < blockCount_of BlockSize' docsCount ->
  blockStart_of BlockSize' blockId = BlockSize' * blockId
  /\ BlockSize' * blockId + BlockSize' <= docsCount.
Proof.
  intros Hb. pose proof blockCount_bounds as [Hlo [_ _]].
  assert (BlockSize' * blockId + BlockSize' <= docsCount) by nia.
  split; [|assumption].
  unfold blockStart_of, size_t_mul. apply Z.mod_small. nia.
Qed.

Lemma docsInCurrBlock_full (blockId : Z) :
  0 <= blockId < blockCount_of BlockSize' docsCount ->
  docsInCurrBlock_of BlockSize' docsCount blockId = BlockSize'.
Proof.
  intros Hb. destruct (blockStart_exact Hb) as [Hs Hle].
  unfold docsInCurrBlock_of. unfold blockStart_of in Hs. rewrite Hs.
  unfold size_t_sub. rewrite Z.mod_small by nia. lia.
Qed.
End BlockFacts.

Section BlockViews.
Variable getFeatureDataBeginPtr : Z -> Z -> float.
Variables BlockSize' docsCount factorsCount : Z.

Lemma build_transp_spec (blockStart docsInCurrBlock : Z) :
  build_transp getFeatureDataBeginPtr factorsCount blockStart docsInCurrBlock
  = map (fun i => MakeArrayRef_ptr
                    (ptr_add (getFeatureDataBeginPtr (to_ui32 i)) blockStart)
                    docsInCurrBlock)
      (indices factorsCount).
Proof.
  unfold build_transp.
  apply (for_loop_fills (fun v => v) TConstArrayRef_empty); reflexivity.
Qed.

Lemma build_docFacs_spec (blockStart docId : Z) :
  build_docFacs getFeatureDataBeginPtr factorsCount blockStart docId
  = map (fun f => getFeatureDataBeginPtr (to_ui32 f) (blockStart + docId))
      (indices factorsCount).
Proof.
  unfold build_docFacs.
  apply (for_loop_fills (fun v => v) float_zero); reflexivity.
Qed.

Lemma build_nonTransp_pool (blockStart docsInCurrBlock : Z) :
  fst (build_nonTransp getFeatureDataBeginPtr factorsCount blockStart docsInCurrBlock)
  = map (build_docFacs getFeatureDataBeginPtr factorsCount blockStart)
      (indices docsInCurrBlock).
Proof.
  unfold build_nonTransp.
  apply (for_loop_fills (@fst _ _) []); reflexivity.
Qed.

Lemma build_nonTransp_refs (blockStart docsInCurrBlock : Z) :
  snd (build_nonTransp getFeatureDataBeginPtr factorsCount blockStart docsInCurrBlock)
  = map (fun docId =>
           MakeArrayRef (build_docFacs getFeatureDataBeginPtr factorsCount
                           blockStart docId))
      (indices docsInCurrBlock).
Proof.
  unfold build_nonTransp.
  apply (for_loop_fills (@snd _ _) TConstArrayRef_empty); reflexivity.
Qed.

(** The three vectors of views, block by block. *)
Lemma build_blocks_spec (blockCount : Z) :
  let blocks := build_blocks getFeatureDataBeginPtr BlockSize' docsCount
                  factorsCount blockCount in
  let start := blockStart_of BlockSize' in
  let docs := docsInCurrBlock_of BlockSize' docsCount in
  nonTransposedPool blocks
  = map (fun b => fst (build_nonTransp getFeatureDataBeginPtr factorsCount
                         (start b) (docs b))) (indices blockCount)
  /\ nonTranspFactorsRef blocks
     = map (fun b => snd (build_nonTransp getFeatureDataBeginPtr factorsCount
                            (start b) (docs b))) (indices blockCount)
  /\ transpFactorsRef blocks
     = map (fun b => build_transp getFeatureDataBeginPtr factorsCount
                       (start b) (docs b)) (indices blockCount).
Proof.
  unfold build_blocks. repeat split.
  - apply (for_loop_fills nonTransposedPool []); reflexivity.
  - apply (for_loop_fills nonTranspFactorsRef []); reflexivity.
  - apply (for_loop_fills transpFactorsRef []); reflexivity.
Qed.
End BlockViews.

Lemma to_ui32_small (n : Z) : 0 <= n < 2 ^ 32 -> to_ui32 n = n.
Proof. intros H. unfold to_ui32. now apply Z.mod_small. Qed.

(** What [DoMain] has built when it has built blocks. *)
Lemma DoMain_blocks (World TFullModel : Type) (options : TCMDOptions)
    (model : TFullModel) (dataset : TDataProvider)
    (factory : TPerftestModuleFactory World TFullModel) (w : World) (blocks : TBlocks) :
  run_blocks (DoMain options model dataset factory w) = Some blocks ->
  exists getFeatureDataBeginPtr,
    RawObjectsData dataset = Some getFeatureDataBeginPtr
    /\ 0 < effectiveBlockSize options dataset
    /\ blocks = build_blocks getFeatureDataBeginPtr (effectiveBlockSize options dataset)
                  (GetObjectCount dataset) (GetFeatureCount dataset)
                  (blockCount_of (effectiveBlockSize options dataset)
                     (GetObjectCount dataset)).
Proof.
  unfold DoMain. destruct (RawObjectsData dataset) as [ptr|]; [|discriminate].
  destruct (effectiveBlockSize options dataset >? 0) eqn:E; simpl; [|discriminate].
  destruct (run_all _ _ _ _ _) as [res w']. simpl.
  intros [= <-]. exists ptr. repeat split. lia.
Qed.

Lemma effectiveBlockSize_bounds (options : TCMDOptions) (dataset : TDataProvider) :
  is_ui32 (GetObjectCount dataset) ->
  0 < effectiveBlockSize options dataset ->
  0 < effectiveBlockSize options dataset <= GetObjectCount dataset
  /\ GetObjectCount dataset < size_t_modulus.
Proof.
  unfold effectiveBlockSize, is_ui32, size_t_modulus. intros Hd Hpos.
  assert (2 ^ 32 < 2 ^ 64) by (vm_compute; reflexivity). lia.
Qed.

(** The blocks that [DoMain] builds from a raw pool that is not empty. *)
Lemma DoMain_builds (World TFullModel : Type) (options : TCMDOptions)
    (model : TFullModel) (dataset : TDataProvider)
    (factory : TPerftestModuleFactory World TFullModel) (w : World)
    (getFeatureDataBeginPtr : Z -> Z -> float) :
  RawObjectsData dataset = Some getFeatureDataBeginPtr ->
  0 < effectiveBlockSize options dataset ->
  run_blocks (DoMain options model dataset factory w)
  = Some (build_blocks getFeatureDataBeginPtr (effectiveBlockSize options dataset)
            (GetObjectCount dataset) (GetFeatureCount dataset)
            (blockCount_of (effectiveBlockSize options dataset)
               (GetObjectCount dataset))).
Proof.
  intros Hraw Hpos. unfold DoMain. rewrite Hraw.
  destruct (Z.gtb_spec (effectiveBlockSize options dataset) 0) as [_|Hle]; [|lia].
  cbn [negb]. destruct (run_all _ _ _ _ _) as [res w']. reflexivity.
Qed.

(** C2: with the effective block size [min(configured, docCount)], the
    driver builds [blockCount = floor(docCount / blockSize)] blocks; the
    views of block [b] hold [blockSize] documents, which are the documents
    from [b * blockSize] on: the entry for a document [d] of the block is at
    position [d - b * blockSize] and is the value of the column at [d].
    The blocks hold exactly the documents below [blockCount * blockSize],
    and a document at or beyond that index lies in no block. *)
Theorem block_partition (World TFullModel : Type) (options : TCMDOptions)
    (model : TFullModel) (dataset : TDataProvider)
    (factory : TPerftestModuleFactory World TFullModel) (w : World)
    (blocks : TBlocks) (getFeatureDataBeginPtr : Z -> Z -> float) :
  is_ui32 (GetObjectCount dataset) ->
  is_ui32 (GetFeatureCount dataset) ->
  RawObjectsData dataset = Some getFeatureDataBeginPtr ->
  run_blocks (DoMain options model dataset factory w) = Some blocks ->
  let B := effectiveBlockSize options dataset in
  let docs := GetObjectCount dataset in
  let n := blockCount_of B docs in
  B = Z.min (BlockSize options) docs
  /\ n = docs / B
  /\ n * B <= docs < (n + 1) * B
  /\ List.length (nonTransposedPool blocks) = Z.to_nat n
  /\ List.length (nonTranspFactorsRef blocks) = Z.to_nat n
  /\ List.length (transpFactorsRef blocks) = Z.to_nat n
  /\ (forall b, 0 <= b < n ->
        blockStart_of B b = b * B
        /\ docsInCurrBlock_of B docs b = B
        /\ Z.of_nat (List.length (vec_get [] (nonTransposedPool blocks) b)) = B
        /\ Z.of_nat (List.length (vec_get [] (nonTranspFactorsRef blocks) b)) = B
        /\ forall f, 0 <= f < GetFeatureCount dataset ->
             size (vec_get TConstArrayRef_empty
                     (vec_get [] (transpFactorsRef blocks) b) f) = B
             /\ forall d, in_block B docs b d ->
                  vec_get float_zero
                    (vec_get [] (vec_get [] (nonTransposedPool blocks) b) (d - b * B)) f
                  = getFeatureDataBeginPtr f d
                  /\ data (vec_get TConstArrayRef_empty
                             (vec_get [] (nonTranspFactorsRef blocks) b) (d - b * B)) f
                     = getFeatureDataBeginPtr f d
                  /\ data (vec_get TConstArrayRef_empty
                             (vec_get [] (transpFactorsRef blocks) b) f) (d - b * B)
                     = getFeatureDataBeginPtr f d)
  /\ (forall d, (exists b, 0 <= b < n /\ in_block B docs b d) <-> 0 <= d < n * B)
  /\ (forall d b, n * B <= d -> 0 <= b < n -> ~ in_block B docs b d).
Proof.
  intros Hd Hf Hraw Hrun. cbv zeta.
  apply DoMain_blocks in Hrun. destruct Hrun as [ptr [Hptr [Hpos ->]]].
  rewrite Hraw in Hptr. injection Hptr as <-.
  destruct (@effectiveBlockSize_bounds options dataset Hd Hpos) as [HB Hdocs].
  pose proof (@blockCount_bounds _ _ HB Hdocs) as [Hlo [Hhi Hone]].
  destruct (build_blocks_spec getFeatureDataBeginPtr
              (effectiveBlockSize options dataset) (GetObjectCount dataset)
              (GetFeatureCount dataset)
              (blockCount_of (effectiveBlockSize options dataset)
                 (GetObjectCount dataset))) as [Hpool [Hrefs Htransp]].
  assert (Hblock : forall b,
            0 <= b < blockCount_of (effectiveBlockSize options dataset)
                       (GetObjectCount dataset) ->
            blockStart_of (effectiveBlockSize options dataset) b
            = b * effectiveBlockSize options dataset
            /\ docsInCurrBlock_of (effectiveBlockSize options dataset)
                 (GetObjectCount dataset) b = effectiveBlockSize options dataset).
  { intros b Hb. split.
    - destruct (@blockStart_exact _ _ HB Hdocs b Hb) as [-> _]. lia.
    - now apply docsInCurrBlock_full. }
  assert (Hin : forall d b,
            0 <= b < blockCount_of (effectiveBlockSize options dataset)
                       (GetObjectCount dataset) ->
            in_block (effectiveBlockSize options dataset) (GetObjectCount dataset) b d
            <-> b * effectiveBlockSize options dataset <= d
                < b * effectiveBlockSize options dataset
                  + effectiveBlockSize options dataset).
  { intros d b Hb. unfold in_block. destruct (Hblock b Hb) as [-> ->]. tauto. }
  split; [reflexivity|]. split; [reflexivity|]. split; [lia|].
  split; [now rewrite Hpool, length_map, indices_length|].
  split; [now rewrite Hrefs, length_map, indices_length|].
  split; [now rewrite Htransp, length_map, indices_length|].
  split; [|split].
  - intros b Hb. destruct (Hblock b Hb) as [Hstart Hfull].
    split; [exact Hstart|]. split; [exact Hfull|].
    rewrite Hpool, Hrefs, Htransp. rewrite !vec_get_map_indices by exact Hb.
    rewrite build_nonTransp_pool, build_nonTransp_refs, build_transp_spec, Hfull.
    split; [rewrite length_map, indices_length; lia|].
    split; [rewrite length_map, indices_length; lia|].
    intros f Hfr. rewrite vec_get_map_indices by exact Hfr.
    split; [reflexivity|].
    intros d Hdin. apply Hin in Hdin; [|exact Hb].
    rewrite !vec_get_map_indices by lia.
    rewrite build_docFacs_spec. unfold MakeArrayRef, MakeArrayRef_ptr, ptr_add.
    cbn [data]. rewrite !vec_get_map_indices by exact Hfr.
    rewrite (to_ui32_small (n := f)) by (unfold is_ui32 in Hf; lia).
    rewrite Hstart.
    replace (b * effectiveBlockSize options dataset
             + (d - b * effectiveBlockSize options dataset)) with d by lia.
    repeat split.
  - intros d. split.
    + intros [b [Hb Hi]]. apply Hin in Hi; [nia | assumption].
    + intros [H0 Hlt]. exists (d / effectiveBlockSize options dataset).
      pose proof (Z.div_mod d (effectiveBlockSize options dataset) ltac:(lia)) as Hdm.
      pose proof (Z.mod_pos_bound d (effectiveBlockSize options dataset) ltac:(lia))
        as Hm.
      assert (Hq : 0 <= d / effectiveBlockSize options dataset
                   < blockCount_of (effectiveBlockSize options dataset)
                       (GetObjectCount dataset)).
      { split; [apply Z.div_pos; lia | apply Z.div_lt_upper_bound; lia]. }
      split; [exact Hq|]. apply Hin; [exact Hq | lia].
  - intros d b Hge Hb Hi. apply Hin in Hi; [nia | assumption].
Qed.

Lemma block_partition_witness :
  exists blocks,
    is_ui32 (GetObjectCount (example_pool 10))
    /\ is_ui32 (GetFeatureCount (example_pool 10))
    /\ run_blocks (DoMain (example_options 3 1) tt (example_pool 10) factory_ABC 0%nat)
       = Some blocks
    /\ blockCount_of (effectiveBlockSize (example_options 3 1) (example_pool 10)) 10 = 3
    /\ List.length (nonTransposedPool blocks) = 3%nat
    /\ map (fun b => (blockStart_of 3 b, blockStart_of 3 b + docsInCurrBlock_of 3 10 b))
         (indices 3) = [(0, 3); (3, 6); (6, 9)]
    /\ (forall b, 0 <= b < 3 ->
          Z.of_nat (List.length (vec_get [] (nonTransposedPool blocks) b)) = 3)
    /\ (forall b, 0 <= b < 3 -> ~ in_block 3 10 b 9).
Proof.
  assert (Hd : is_ui32 (GetObjectCount (example_pool 10))) by (vm_compute; split; congruence).
  assert (Hf : is_ui32 (GetFeatureCount (example_pool 10))) by (vm_compute; split; congruence).
  assert (Hp : 0 < effectiveBlockSize (example_options 3 1) (example_pool 10))
    by (vm_compute; reflexivity).
  pose proof (@DoMain_builds nat unit (example_options 3 1) tt (example_pool 10)
                factory_ABC 0%nat _ eq_refl Hp) as Hrun.
  eexists. split; [exact Hd|]. split; [exact Hf|]. split; [exact Hrun|].
  destruct (@block_partition nat unit (example_options 3 1) tt (example_pool 10)
              factory_ABC 0%nat _ _ Hd Hf eq_refl Hrun)
    as [_ [_ [_ [Hlen [_ [_ [Hblocks [_ Hout]]]]]]]].
  split; [reflexivity|]. split; [exact Hlen|]. split; [reflexivity|]. split.
  - intros b Hb. destruct (Hblocks b Hb) as [_ [_ [H _]]]. exact H.
  - intros b Hb. apply (Hout 9 b); [vm_compute; congruence | exact Hb].
Defined.



(** C5: in every block that [DoMain] has built, for every document of the
    block and every feature, the entry of the transposed per-document
    vector, read directly or through the objects-first view, is the value
    at position [blockStart + docId] of the column of the feature, which is
    inside the column and is also what the features-first view of the block
    reads for that document. *)
Theorem views_agree (World TFullModel : Type) (options : TCMDOptions)
    (model : TFullModel) (dataset : TDataProvider)
    (factory : TPerftestModuleFactory World TFullModel) (w : World)
    (blocks : TBlocks) (getFeatureDataBeginPtr : Z -> Z -> float)
    (blockId docId featureId : Z) :
  is_ui32 (GetObjectCount dataset) ->
  is_ui32 (GetFeatureCount dataset) ->
  RawObjectsData dataset = Some getFeatureDataBeginPtr ->
  run_blocks (DoMain options model dataset factory w) = Some blocks ->
  let B := effectiveBlockSize options dataset in
  let blockStart := blockStart_of B blockId in
  0 <= blockId < blockCount_of B (GetObjectCount dataset) ->
  0 <= docId < docsInCurrBlock_of B (GetObjectCount dataset) blockId ->
  0 <= featureId < GetFeatureCount dataset ->
  let column := getFeatureDataBeginPtr featureId in
  0 <= blockStart + docId < GetObjectCount dataset
  /\ vec_get float_zero
       (vec_get [] (vec_get [] (nonTransposedPool blocks) blockId) docId) featureId
     = column (blockStart + docId)
  /\ data (vec_get TConstArrayRef_empty
             (vec_get [] (nonTranspFactorsRef blocks) blockId) docId) featureId
     = column (blockStart + docId)
  /\ data (vec_get TConstArrayRef_empty
             (vec_get [] (transpFactorsRef blocks) blockId) featureId) docId
     = column (blockStart + docId).
Proof.
  intros Hd Hf Hraw Hrun. cbv zeta. intros Hb Hdoc Hfeat.
  apply DoMain_blocks in Hrun. destruct Hrun as [ptr [Hptr [Hpos ->]]].
  rewrite Hraw in Hptr. injection Hptr as <-.
  destruct (@effectiveBlockSize_bounds options dataset Hd Hpos) as [HB Hdocs].
  rewrite (@docsInCurrBlock_full _ _ HB Hdocs blockId Hb) in Hdoc.
  destruct (@blockStart_exact _ _ HB Hdocs blockId Hb) as [Hstart Hend].
  destruct (build_blocks_spec getFeatureDataBeginPtr
              (effectiveBlockSize options dataset) (GetObjectCount dataset)
              (GetFeatureCount dataset)
              (blockCount_of (effectiveBlockSize options dataset)
                 (GetObjectCount dataset))) as [Hpool [Hrefs Htransp]].
  rewrite Hpool, Hrefs, Htransp. rewrite !vec_get_map_indices by exact Hb.
  rewrite build_nonTransp_pool, build_nonTransp_refs, build_transp_spec.
  rewrite (@docsInCurrBlock_full _ _ HB Hdocs blockId Hb).
  rewrite !vec_get_map_indices by assumption.
  rewrite build_docFacs_spec. unfold MakeArrayRef, MakeArrayRef_ptr, ptr_add. simpl.
  rewrite !vec_get_map_indices by assumption.
  rewrite (to_ui32_small (n := featureId)) by (unfold is_ui32 in Hf; lia).
  split; [nia|]. repeat split.
Qed.

Lemma views_agree_witness :
  let run := DoMain (example_options 3 1) tt (example_pool 10) factory_ABC 0%nat in
  exists blocks,
    run_blocks run = Some blocks
    /\ vec_get float_zero
         (vec_get [] (vec_get [] (nonTransposedPool blocks) 2) 1) 1
       = binary_normalize 24 128 107 0 false
    /\ data (vec_get TConstArrayRef_empty
               (vec_get [] (transpFactorsRef blocks) 2) 1) 1
       = binary_normalize 24 128 107 0 false.
Proof.
  cbv zeta.
  destruct (run_blocks (DoMain (example_options 3 1) tt (example_pool 10)
                          factory_ABC 0%nat)) as [blocks|] eqn:Hrun;
    [|vm_compute in Hrun; discriminate].
  exists blocks. split; [reflexivity|].
  assert (Hd : is_ui32 (GetObjectCount (example_pool 10))) by (vm_compute; split; congruence).
  assert (Hf : is_ui32 (GetFeatureCount (example_pool 10))) by (vm_compute; split; congruence).
  destruct (@views_agree nat unit (example_options 3 1) tt (example_pool 10)
              factory_ABC 0%nat blocks _ 2 1 1 Hd Hf eq_refl Hrun)
    as [_ [H1 [_ H3]]]; try (vm_compute; split; congruence).
  split; [exact H1 | exact H3].
Defined.

(** ** Construction of the modules and choice of the baseline *)

Lemma keep_higher_first_maximum (cands : list (Z * string)) :
  forall held : Z * string,
    let chosen := fold_left keep_higher cands held in
    (chosen = held /\ forall c, In c cands -> fst c <= fst held)
    \/ (fst held < fst chosen
        /\ (forall c, In c cands -> fst c <= fst chosen)
        /\ exists k : nat,
             nth_error cands k = Some chosen
             /\ forall (j : nat) (c : Z * string),
                  (j < k)%nat -> nth_error cands j = Some c -> fst c < fst chosen).
Proof.
  induction cands as [|c rest IH]; intros held; cbv zeta.
  - left. split; [reflexivity | intros c []].
  - cbn [fold_left].
    change (keep_higher held c) with (if fst c >? fst held then c else held).
    destruct (Z.gtb_spec (fst c) (fst held)) as [Hgt|Hle].
    + right. destruct (IH c) as [[Heq Hall] | [Hlt [Hall [k [Hk Hbefore]]]]].
      * rewrite Heq. split; [lia|]. split.
        -- intros c' [<- | Hin]; [lia | now apply Hall].
        -- exists 0%nat. split; [reflexivity | intros j c' Hj; lia].
      * split; [lia|]. split.
        -- intros c' [<- | Hin]; [lia | now apply Hall].
        -- exists (S k). split; [exact Hk|].
           intros [|j] c' Hj Hc'; simpl in Hc'.
           ++ injection Hc' as <-. lia.
           ++ apply (Hbefore j); [lia | exact Hc'].
    + destruct (IH held) as [[Heq Hall] | [Hlt [Hall [k [Hk Hbefore]]]]].
      * left. split; [exact Heq|]. intros c' [<- | Hin]; [lia | now apply Hall].
      * right. split; [exact Hlt|]. split.
        -- intros c' [<- | Hin]; [lia | now apply Hall].
        -- exists (S k). split; [exact Hk|].
           intros [|j] c' Hj Hc'; simpl in Hc'.
           ++ injection Hc' as <-. lia.
           ++ apply (Hbefore j); [lia | exact Hc'].
Qed.

Section Construction.
Variables World TFullModel : Type.
Variable factory : TPerftestModuleFactory World TFullModel.
Variable model : TFullModel.

Lemma consider_baseline_spec (m : IPerftestModule World)
    (layout : EPerftestModuleDataLayout) (st : TDriverState World) :
  let st' := consider_baseline m layout st in
  modules st' = modules st /\ cerr st' = cerr st
  /\ Results (results st') = Results (results st)
  /\ baseline_of st'
     = keep_higher (baseline_of st)
         (GetComparisonPriority m layout, GetName m layout).
Proof.
  unfold consider_baseline, baseline_of, keep_higher. simpl.
  destruct (GetComparisonPriority m layout >? biggestPriority st); simpl;
    repeat split.
Qed.

(** The loop over the keys, seen from any state it starts in. *)
Lemma construct_modules_spec (keys : list string) :
  forall st : TDriverState World,
    let st' := construct_modules factory model keys st in
    modules st' = modules st ++ constructed factory model keys
    /\ cerr st' = cerr st ++ construction_failures factory model keys
    /\ Results (results st') = Results (results st)
    /\ baseline_of st'
       = fold_left keep_higher (candidates (constructed factory model keys))
           (baseline_of st).
Proof.
  induction keys as [|key keys IH]; intros st; cbv zeta.
  - simpl. rewrite !app_nil_r. repeat split.
  - unfold construct_modules. cbn [fold_left].
    fold (construct_modules factory model keys (construct_step factory model st key)).
    destruct (IH (construct_step factory model st key)) as [Hm [Hc [Hr Hb]]].
    rewrite Hm, Hc, Hr, Hb. clear IH Hm Hc Hr Hb.
    unfold construct_step, constructed, construction_failures. cbn [flat_map].
    destruct (Construct factory key model) as [e|m].
    + simpl. rewrite <- app_assoc. repeat split.
    + set (st1 := {| modules := modules st ++ [m];
                     biggestPriority := biggestPriority st;
                     results := results st; cerr := cerr st |}).
      destruct (consider_baseline_spec m ObjectsFirst st1) as [Hm1 [Hc1 [Hr1 Hb1]]].
      destruct (consider_baseline_spec m FeaturesFirst
                  (consider_baseline m ObjectsFirst st1)) as [Hm2 [Hc2 [Hr2 Hb2]]].
      rewrite Hm2, Hc2, Hr2, Hb2, Hm1, Hc1, Hr1, Hb1. subst st1. simpl.
      rewrite <- app_assoc. repeat split.
Qed.

Lemma constructed_filter (keys : list string) :
  constructed factory model (filter (constructs factory model) keys)
  = constructed factory model keys.
Proof.
  unfold constructed, constructs.
  induction keys as [|key keys IH]; [reflexivity|]. cbn [filter flat_map].
  destruct (Construct factory key model) as [e|m] eqn:E; [exact IH|].
  cbn [flat_map]. now rewrite E, IH.
Qed.

Lemma construction_failures_filter (keys : list string) :
  construction_failures factory model (filter (constructs factory model) keys) = [].
Proof.
  unfold construction_failures, constructs.
  induction keys as [|key keys IH]; [reflexivity|]. cbn [filter flat_map].
  destruct (Construct factory key model) as [e|m] eqn:E; [exact IH|].
  cbn [flat_map]. now rewrite E, IH.
Qed.
End Construction.

(** ** The run as a whole *)

Lemma for_loop_invariant {St : Type} (P : St -> Prop) (n : Z)
    (body : Z -> St -> St) (s : St) :
  P s -> (forall i s', 0 <= i < n -> P s' -> P (body i s')) -> P (for_loop n body s).
Proof.
  unfold for_loop. intros Hs Hbody.
  assert (H : forall l, (forall i, In i l -> 0 <= i < n) ->
              forall s', P s' -> P (fold_left (fun acc i => body i acc) l s')).
  { induction l as [|i l IH]; intros Hl s' Hs'; [exact Hs'|].
    simpl. apply IH; [intros j Hj; apply Hl; now right|].
    apply Hbody; [apply Hl; now left | exact Hs']. }
  apply H; [|exact Hs]. intros i Hi. now apply in_indices.
Qed.

Lemma fold_left_invariant {St A : Type} (P : St -> Prop) (f : St -> A -> St)
    (l : list A) :
  (forall s a, In a l -> P s -> P (f s a)) -> forall s, P s -> P (fold_left f l s).
Proof.
  induction l as [|a l IH]; intros Hf s Hs; [exact Hs|].
  simpl. apply IH; [intros s' a' Ha'; apply Hf; now right|].
  apply Hf; [now left | exact Hs].
Qed.

Section Run.
Variables World TFullModel : Type.
Variable options : TCMDOptions.
Variable model : TFullModel.
Variable dataset : TDataProvider.
Variable factory : TPerftestModuleFactory World TFullModel.
Variable w : World.

(** The timed loop changes the samples, never the name of the baseline. *)
Lemma run_all_BaseResultName (repetitions blockCount : Z) (blocks : TBlocks)
    (mods : list (IPerftestModule World)) (st : TResults * World) :
  BaseResultName (fst (run_all repetitions blockCount blocks mods st))
  = BaseResultName (fst st).
Proof.
  unfold run_all.
  apply (for_loop_invariant
           (fun s => BaseResultName (fst s) = BaseResultName (fst st)));
    [reflexivity|].
  intros _ s1 _ H1. unfold run_repetition.
  apply (fold_left_invariant
           (fun s => BaseResultName (fst s) = BaseResultName (fst st)));
    [|exact H1].
  intros s2 m _ H2. unfold run_module.
  assert (Hblock : forall name layout views n s,
            BaseResultName (fst s) = BaseResultName (fst st) ->
            BaseResultName (fst (for_loop n (run_block name m layout views) s))
            = BaseResultName (fst st)).
  { intros name layout views n s Hs.
    apply (for_loop_invariant
             (fun s => BaseResultName (fst s) = BaseResultName (fst st)));
      [exact Hs|].
    intros i s' _ Hs'. unfold run_block.
    destruct (Do m layout (vec_get [] views i) (snd s')) as [time w']. exact Hs'. }
  destruct (SupportsLayout m ObjectsFirst), (SupportsLayout m FeaturesFirst);
    repeat apply Hblock; exact H2.
Qed.

(** What [DoMain] leaves behind when the pool is raw and not empty. *)
Lemma DoMain_reached (getFeatureDataBeginPtr : Z -> Z -> float) :
  RawObjectsData dataset = Some getFeatureDataBeginPtr ->
  0 < effectiveBlockSize options dataset ->
  let B := effectiveBlockSize options dataset in
  let blockCount := blockCount_of B (GetObjectCount dataset) in
  let blocks := build_blocks getFeatureDataBeginPtr B (GetObjectCount dataset)
                  (GetFeatureCount dataset) blockCount in
  let st := construct_modules factory model (GetRegisteredKeys factory)
              (initial_state World) in
  let final := run_all (RepetitionCount options) blockCount blocks (modules st)
                 (results st, w) in
  let run := DoMain options model dataset factory w in
  run_modules run = modules st
  /\ run_cerr run = cerr st
  /\ run_results run = fst final
  /\ run_world run = snd final
  /\ run_status run = report_status (OutputResults (fst final))
  /\ run_report run = info_log (OutputResults (fst final))
  /\ run_results_json run = results_json (OutputResults (fst final))
  /\ run_canonData run = Some (Canon.Build blockCount)
  /\ run_blocks run = Some blocks.
Proof.
  intros Hraw Hpos. cbv zeta. unfold DoMain. rewrite Hraw.
  destruct (Z.gtb_spec (effectiveBlockSize options dataset) 0) as [_|Hle]; [|lia].
  cbn [negb]. destruct (run_all _ _ _ _ _) as [res w']. repeat split.
Qed.
End Run.

(** C3: the baseline that the driver chooses is the first candidate of the
    highest comparison priority, where the candidates are the constructed
    variants in key order and, for each variant, its objects-first layout
    before its features-first layout: its priority is strictly above that of
    every candidate before it and at least that of every candidate.  A
    baseline is chosen as soon as one priority is above [Min<int>()], the
    value the driver starts from; otherwise the name stays empty. *)
Theorem baseline_is_first_highest (World TFullModel : Type)
    (options : TCMDOptions) (model : TFullModel) (dataset : TDataProvider)
    (factory : TPerftestModuleFactory World TFullModel) (w : World)
    (getFeatureDataBeginPtr : Z -> Z -> float) :
  RawObjectsData dataset = Some getFeatureDataBeginPtr ->
  0 < effectiveBlockSize options dataset ->
  let run := DoMain options model dataset factory w in
  let cands := candidates (run_modules run) in
  run_modules run = constructed factory model (GetRegisteredKeys factory)
  /\ (Exists (fun c => Min_int < fst c) cands ->
      exists (k : nat) (priority : Z),
        nth_error cands k = Some (priority, BaseResultName (run_results run))
        /\ (forall (j : nat) (c : Z * string),
              (j < k)%nat -> nth_error cands j = Some c -> fst c < priority)
        /\ (forall c, In c cands -> fst c <= priority))
  /\ (Forall (fun c => fst c <= Min_int) cands ->
      BaseResultName (run_results run) = EmptyString).
Proof.
  intros Hraw Hpos. cbv zeta.
  destruct (@DoMain_reached World TFullModel options model dataset factory w
              getFeatureDataBeginPtr Hraw Hpos) as [Hmods [_ [Hres _]]].
  rewrite Hmods, Hres, run_all_BaseResultName. cbn [fst].
  destruct (@construct_modules_spec World TFullModel factory model
              (GetRegisteredKeys factory) (initial_state World)) as [Hm [_ [_ Hb]]].
  cbn [initial_state modules app] in Hm. rewrite Hm.
  split; [reflexivity|].
  pose proof (@keep_higher_first_maximum
                (candidates (constructed factory model (GetRegisteredKeys factory)))
                (baseline_of (initial_state World))) as Hscan.
  cbv zeta in Hscan. rewrite <- Hb in Hscan.
  assert (Hinit : baseline_of (initial_state World) = (Min_int, EmptyString))
    by reflexivity.
  rewrite Hinit in Hscan. cbn [fst] in Hscan.
  split.
  - intros Hex. destruct Hscan as [[_ Hall] | [_ [Hall [k [Hk Hbefore]]]]].
    + apply Exists_exists in Hex. destruct Hex as [c [Hin Hc]].
      specialize (Hall c Hin). lia.
    + exists k, (biggestPriority
                   (construct_modules factory model (GetRegisteredKeys factory)
                      (initial_state World))).
      split; [exact Hk|]. split; [exact Hbefore | exact Hall].
  - intros Hall. destruct Hscan as [[Heq _] | [Hlt [_ [k [Hk _]]]]].
    + unfold baseline_of in Heq. now injection Heq.
    + apply nth_error_In in Hk. rewrite Forall_forall in Hall.
      specialize (Hall _ Hk). unfold baseline_of in Hlt, Hall.
      cbn [fst] in Hlt, Hall. lia.
Qed.

Lemma baseline_is_first_highest_witness :
  let run := DoMain (example_options 3 1) tt (example_pool 10) factory_ABC 0%nat in
  map fst (candidates (run_modules run)) = [5; 5; 7; 7; 3; 3]
  /\ exists (k : nat) (priority : Z),
       nth_error (candidates (run_modules run)) k = Some (priority, "B")
       /\ BaseResultName (run_results run) = "B".
Proof.
  cbv zeta. split; [reflexivity|].
  destruct (@baseline_is_first_highest nat unit (example_options 3 1) tt
              (example_pool 10) factory_ABC 0%nat _ eq_refl)
    as [_ [Hchosen _]]; [vm_compute; reflexivity|].
  destruct Hchosen as [k [priority [Hk _]]];
    [apply Exists_cons_hd; vm_compute; reflexivity|].
  exists k, priority. split; [|vm_compute; reflexivity].
  rewrite Hk. do 2 f_equal.
Defined.

(** C6: when the construction of a variant throws, the key and the message
    are sent to [Cerr] and the variant is left out, and nothing else
    changes: every key that constructs yields its module, and the run ends
    the way, with the registry, the report and the file, that it has when
    the failing keys are not registered at all. *)
Theorem construction_failure_is_isolated (World TFullModel : Type)
    (options : TCMDOptions) (model : TFullModel) (dataset : TDataProvider)
    (factory : TPerftestModuleFactory World TFullModel) (w : World)
    (getFeatureDataBeginPtr : Z -> Z -> float) :
  RawObjectsData dataset = Some getFeatureDataBeginPtr ->
  0 < effectiveBlockSize options dataset ->
  let keys := GetRegisteredKeys factory in
  let run := DoMain options model dataset factory w in
  let run' := DoMain options model dataset (without_failures factory model) w in
  (forall key e, In key keys -> Construct factory key model = inl e ->
     In (FailedToConstruct key (what e)) (run_cerr run))
  /\ (forall key m, In key keys -> Construct factory key model = inr m ->
        In m (run_modules run))
  /\ run_modules run = constructed factory model keys
  /\ run_cerr run = construction_failures factory model keys
  /\ run_cerr run' = []
  /\ run_modules run' = run_modules run
  /\ run_results run' = run_results run
  /\ run_status run' = run_status run
  /\ run_report run' = run_report run
  /\ run_results_json run' = run_results_json run
  /\ run_world run' = run_world run.
Proof.
  intros Hraw Hpos. cbv zeta.
  destruct (@DoMain_reached World TFullModel options model dataset factory w
              getFeatureDataBeginPtr Hraw Hpos)
    as [Hmods [Hcerr [Hres [Hworld [Hstatus [Hreport [Hjson _]]]]]]].
  destruct (@DoMain_reached World TFullModel options model dataset
              (without_failures factory model) w getFeatureDataBeginPtr Hraw Hpos)
    as [Hmods' [Hcerr' [Hres' [Hworld' [Hstatus' [Hreport' [Hjson' _]]]]]]].
  destruct (@construct_modules_spec World TFullModel factory model
              (GetRegisteredKeys factory) (initial_state World))
    as [Hm [Hc [Hr Hb]]].
  destruct (@construct_modules_spec World TFullModel (without_failures factory model)
              model (GetRegisteredKeys (without_failures factory model))
              (initial_state World)) as [Hm' [Hc' [Hr' Hb']]].
  set (st := construct_modules factory model (GetRegisteredKeys factory)
               (initial_state World)) in *.
  set (st' := construct_modules (without_failures factory model) model
                (GetRegisteredKeys (without_failures factory model))
                (initial_state World)) in *.
  cbn [initial_state modules cerr app] in Hm, Hc, Hm', Hc'.
  cbn [without_failures GetRegisteredKeys] in Hm', Hc', Hb'.
  change (constructed (without_failures factory model) model)
    with (constructed factory model) in Hm', Hb'.
  change (construction_failures (without_failures factory model) model)
    with (construction_failures factory model) in Hc'.
  rewrite constructed_filter in Hm', Hb'.
  rewrite construction_failures_filter in Hc'.
  assert (Hmm : modules st' = modules st) by congruence.
  assert (Hrr : results st' = results st).
  { rewrite <- Hb in Hb'. unfold baseline_of in Hb'. rewrite <- Hr in Hr'.
    destruct (results st') as [R' N'], (results st) as [R N]. simpl in *. congruence. }
  rewrite Hmm, Hrr in *.
  rewrite Hmods, Hcerr, Hmods', Hcerr', Hres, Hres', Hworld, Hworld', Hstatus,
    Hstatus', Hreport, Hreport', Hjson, Hjson', Hm, Hc.
  repeat split; try assumption.
  - intros key e Hin He. unfold construction_failures. apply in_flat_map.
    exists key. split; [exact Hin|]. rewrite He. now left.
  - intros key m Hin Hc0. unfold constructed. apply in_flat_map.
    exists key. split; [exact Hin|]. rewrite Hc0. now left.
Qed.

Lemma construction_failure_is_isolated_witness :
  let run := DoMain (example_options 3 1) tt (example_pool 10) factory_broken_B 0%nat in
  Construct factory_broken_B "B" tt = inl (yexception "unsupported model")
  /\ run_cerr run = [FailedToConstruct "B" "unsupported model"]
  /\ map (fun m => GetName m ObjectsFirst) (run_modules run) = ["A"; "C"]
  /\ TMap_keys (Results (run_results run)) = ["A"; "C"]
  /\ run_status run = Returned.
Proof.
  cbv zeta. split; [reflexivity|].
  destruct (@construction_failure_is_isolated nat unit (example_options 3 1) tt
              (example_pool 10) factory_broken_B 0%nat _ eq_refl)
    as [_ [_ [Hmods [Hcerr _]]]].
  - vm_compute. reflexivity.
  - rewrite Hcerr, Hmods. repeat split; vm_compute; reflexivity.
Defined.

(** C8: the validator that [DoMain] holds at the end of the run is the one
    it constructed: no call of [CheckOrSet] is made, and the reference of
    every block is still empty. *)
Theorem canon_never_checked (World TFullModel : Type)
    (options : TCMDOptions) (model : TFullModel) (dataset : TDataProvider)
    (factory : TPerftestModuleFactory World TFullModel) (w : World)
    (c : Canon.TCanonData) :
  run_canonData (DoMain options model dataset factory w) = Some c ->
  let blockCount :=
    blockCount_of (effectiveBlockSize options dataset) (GetObjectCount dataset) in
  c = Canon.Build blockCount
  /\ forall blockId, 0 <= blockId < blockCount -> reference c blockId = Some [].
Proof.
  unfold DoMain. destruct (RawObjectsData dataset) as [ptr|]; [|discriminate].
  destruct (effectiveBlockSize options dataset >? 0); cbn [negb]; [|discriminate].
  destruct (run_all _ _ _ _ _) as [res w']. cbn [run_canonData].
  intros [= <-]. cbv zeta. split; [reflexivity|].
  intros blockId Hb. unfold reference, Canon.Build, vec_make. cbn [Canon.Results].
  rewrite nth_error_repeat by lia. reflexivity.
Qed.

Lemma canon_never_checked_witness :
  run_canonData (DoMain (example_options 3 1) tt (example_pool 10) factory_ABC 0%nat)
  = Some (Canon.Build 3)
  /\ reference (Canon.Build 3) 2 = Some [].
Proof.
  assert (H : run_canonData
                (DoMain (example_options 3 1) tt (example_pool 10) factory_ABC 0%nat)
              = Some (Canon.Build 3)) by (vm_compute; reflexivity).
  split; [exact H|].
  destruct (@canon_never_checked nat unit (example_options 3 1) tt (example_pool 10)
              factory_ABC 0%nat (Canon.Build 3) H) as [_ Hall].
  apply Hall. vm_compute. split; congruence.
Defined.

(** ** The report *)

(** [OutputResults] when the baseline is named and has no samples. *)
Lemma OutputResults_missing_baseline (r : TResults) :
  BaseResultName r <> EmptyString ->
  TMap_find (Results r) (BaseResultName r) = None ->
  OutputResults r
  = {| info_log := report_header ++ name_line (BaseResultName r);
       results_json := None;
       report_status := Thrown (out_of_range map_at_what) |}.
Proof.
  intros Hset Hmiss. unfold OutputResults.
  destruct (String.eqb_spec (BaseResultName r) EmptyString) as [E|_];
    [contradiction|].
  now rewrite Hmiss.
Qed.

(** C7 (amended): when at report time [BaseResultName] is set and is not a
    key of the registry, [OutputResults] throws (the [std::out_of_range] of
    [Results.at], whose text is the library's), and the exception reaches
    [main]: its message is sent to [Cerr], the exit code is -1,
    [results.json] is not written and no statistics are reported.  The
    header line and the line of the baseline name have been logged by
    then. *)
Theorem missing_baseline_is_fatal (World TFullModel : Type)
    (options : TCMDOptions) (model : TFullModel) (dataset : TDataProvider)
    (factory : TPerftestModuleFactory World TFullModel) (w : World) :
  let run := DoMain options model dataset factory w in
  let base := BaseResultName (run_results run) in
  let process := main options model dataset factory w in
  base <> EmptyString ->
  TMap_find (Results (run_results run)) base = None ->
  (exists text,
     run_status run = Thrown (out_of_range text)
     /\ process_cerr process = run_cerr run ++ [ExceptionMessage text])
  /\ exit_code process = Some (-1)
  /\ process_results_json process = None
  /\ process_report process = report_header ++ name_line base.
Proof.
  cbv zeta. unfold main.
  assert (Hrun :
    BaseResultName (run_results (DoMain options model dataset factory w)) <> EmptyString ->
    run_status (DoMain options model dataset factory w)
    = report_status (OutputResults (run_results (DoMain options model dataset factory w)))
    /\ run_report (DoMain options model dataset factory w)
       = info_log (OutputResults (run_results (DoMain options model dataset factory w)))
    /\ run_results_json (DoMain options model dataset factory w)
       = results_json (OutputResults (run_results (DoMain options model dataset factory w)))).
  { unfold DoMain. destruct (RawObjectsData dataset) as [ptr|];
      [|intros H; now contradiction H].
    destruct (effectiveBlockSize options dataset >? 0); cbn [negb];
      [|intros H; now contradiction H].
    destruct (run_all _ _ _ _ _) as [res w']. intros _. repeat split. }
  intros Hset Hmiss. destruct (Hrun Hset) as [Hstatus [Hreport Hjson]].
  rewrite (OutputResults_missing_baseline _ Hset Hmiss) in Hstatus, Hreport, Hjson.
  cbn [report_status info_log results_json] in Hstatus, Hreport, Hjson.
  rewrite Hstatus. cbn [exit_code process_cerr process_results_json process_report what].
  rewrite Hreport, Hjson. split; [exists map_at_what|]; repeat split.
Qed.

Lemma missing_baseline_is_fatal_witness :
  let run := DoMain (example_options 3 0) tt (example_pool 10) factory_A 0%nat in
  BaseResultName (run_results run) = "A"
  /\ Results (run_results run) = []
  /\ exit_code (main (example_options 3 0) tt (example_pool 10) factory_A 0%nat)
     = Some (-1).
Proof.
  cbv zeta. split; [reflexivity|]. split; [reflexivity|].
  destruct (@missing_baseline_is_fatal nat unit (example_options 3 0) tt
              (example_pool 10) factory_A 0%nat) as [_ [H _]].
  - vm_compute. discriminate.
  - vm_compute. reflexivity.
  - exact H.
Defined.

(** C7, as stated, fails: in a run of no repetition the baseline is named
    and has no samples, and the report is not empty when the run aborts. *)
Lemma missing_baseline_report_counterexample :
  ~ (forall (options : TCMDOptions) (dataset : TDataProvider)
            (factory : TPerftestModuleFactory nat unit) (w : nat),
       let run := DoMain options tt dataset factory w in
       let process := main options tt dataset factory w in
       BaseResultName (run_results run) <> EmptyString ->
       TMap_find (Results (run_results run)) (BaseResultName (run_results run)) = None ->
       exit_code process <> Some 0
       /\ process_report process = []
       /\ process_results_json process = None).
Proof.
  intros H.
  specialize (H (example_options 3 0) (example_pool 10) factory_A 0%nat).
  cbv zeta in H. destruct H as [_ [H _]].
  - vm_compute. discriminate.
  - vm_compute. reflexivity.
  - vm_compute in H. discriminate.
Qed.

(** ** The timed loop *)

Lemma TMap_upsert_keys {V : Type} (m : TMap V) (name : string) (d : V) (f : V -> V)
    (k : string) :
  In k (TMap_keys (TMap_upsert m name d f)) <-> k = name \/ In k (TMap_keys m).
Proof.
  unfold TMap_keys. induction m as [|[k' v] rest IH]; simpl.
  - split; [intros [<- | []]; now left | intros [-> | []]; now left].
  - destruct (String.compare name k') eqn:E; simpl.
    + apply String.compare_eq_iff in E. subst k'. split.
      * intros [<- | H]; [right; now left | right; now right].
      * intros [-> | [<- | H]]; [now left | now left | now right].
    + split.
      * intros [<- | [<- | H]]; [now left | right; now left | right; now right].
      * intros [-> | [<- | H]]; [now left | right; now left | right; now right].
    + rewrite IH. split.
      * intros [<- | [-> | H]]; [right; now left | now left | right; now right].
      * intros [-> | [<- | H]]; [right; now left | now left | right; now right].
Qed.

(** Every name under which the timed loop records a time is the
    objects-first name of a module. *)
Lemma run_all_keys (World : Type) (repetitions blockCount : Z) (blocks : TBlocks)
    (mods : list (IPerftestModule World)) (st : TResults * World) (k : string) :
  In k (TMap_keys (Results (fst (run_all repetitions blockCount blocks mods st)))) ->
  In k (TMap_keys (Results (fst st)))
  \/ exists m, In m mods /\ k = GetName m ObjectsFirst.
Proof.
  set (P := fun s : TResults * World =>
              In k (TMap_keys (Results (fst s))) ->
              In k (TMap_keys (Results (fst st)))
              \/ exists m, In m mods /\ k = GetName m ObjectsFirst).
  change (P (run_all repetitions blockCount blocks mods st)).
  unfold run_all. apply for_loop_invariant; [subst P; cbv beta; tauto|].
  intros _ s1 _ H1. unfold run_repetition.
  apply (fold_left_invariant P); [|exact H1].
  intros s2 m Hm H2. unfold run_module.
  assert (Hblock : forall layout views n s,
            P s -> P (for_loop n (run_block (GetName m ObjectsFirst) m layout views) s)).
  { intros layout views n s Hs. apply for_loop_invariant; [exact Hs|].
    intros i s' _ Hs'. unfold run_block.
    destruct (Do m layout (vec_get [] views i) (snd s')) as [time w'].
    subst P. cbv beta in *. cbn [fst UpdateResult Results]. intros Hk.
    apply TMap_upsert_keys in Hk. destruct Hk as [-> | Hk]; [|now apply Hs'].
    right. exists m. split; [exact Hm | reflexivity]. }
  destruct (SupportsLayout m ObjectsFirst), (SupportsLayout m FeaturesFirst);
    repeat apply Hblock; exact H2.
Qed.

(** C1 fails on one variant that supports both layouts, one block and one
    repetition: the time of the features-first call is recorded under the
    objects-first name, which gets two samples where
    [repetitionCount * blockCount] is one, and the features-first name gets
    none. *)
Theorem features_first_times_under_objects_first_name :
  let run := DoMain (example_options 1 1) tt (example_pool 1) factory_A 0%nat in
  let samples name :=
    option_map (fun t => List.length (Times t))
      (TMap_find (Results (run_results run)) name) in
  map (fun m => (GetName m ObjectsFirst, GetName m FeaturesFirst,
                 SupportsLayout m ObjectsFirst, SupportsLayout m FeaturesFirst))
    (run_modules run) = [("A", "A_transposed", true, true)]
  /\ RepetitionCount (example_options 1 1)
     * blockCount_of (effectiveBlockSize (example_options 1 1) (example_pool 1)) 1 = 1
  /\ samples "A" = Some 2%nat
  /\ samples "A_transposed" = None.
Proof. vm_compute. repeat split. Qed.

(** * Further properties *)

Unset Implicit Arguments.

(** ** The order of the keys *)

Lemma ascii_compare_refl (a : ascii) : Ascii.compare a a = Eq.
Proof. unfold Ascii.compare. apply N.compare_refl. Qed.

Lemma string_compare_refl (s : string) : String.compare s s = Eq.
Proof.
  induction s as [|a s IH]; [reflexivity|]. simpl.
  now rewrite ascii_compare_refl.
Qed.

Lemma string_compare_lt_trans (a : string) :
  forall b c : string,
    String.compare a b = Lt -> String.compare b c = Lt -> String.compare a c = Lt.
Proof.
  induction a as [|x a IH]; intros [|y b] [|z c]; simpl; try discriminate; auto.
  unfold Ascii.compare.
  destruct (N.compare_spec (N_of_ascii x) (N_of_ascii y)) as [Exy|Lxy|Gxy];
    try discriminate;
    destruct (N.compare_spec (N_of_ascii y) (N_of_ascii z)) as [Eyz|Lyz|Gyz];
    try discriminate; intros H1 H2.
  - rewrite Exy, Eyz, N.compare_refl. now apply (IH b c).
  - rewrite Exy. now apply N.compare_lt_iff in Lyz as ->.
  - rewrite <- Eyz. now apply N.compare_lt_iff in Lxy as ->.
  - assert (Hxz : (N_of_ascii x < N_of_ascii z)%N) by (eapply N.lt_trans; eassumption).
    now apply N.compare_lt_iff in Hxz as ->.
Qed.

Lemma string_compare_eqb (a b : string) :
  String.eqb a b = match String.compare a b with Eq => true | _ => false end.
Proof.
  destruct (String.eqb_spec a b) as [->|Hne].
  - now rewrite string_compare_refl.
  - destruct (String.compare a b) eqn:E; try reflexivity.
    apply String.compare_eq_iff in E. contradiction.
Qed.

Lemma string_compare_gt_lt (a b : string) :
  String.compare a b = Gt -> String.compare b a = Lt.
Proof. intros H. rewrite String.compare_antisym, H. reflexivity. Qed.

(** ** The registry as a map *)

Lemma TMap_find_not_key {V : Type} (m : TMap V) (k : string) :
  TMap_find m k = None <-> ~ In k (TMap_keys m).
Proof.
  unfold TMap_keys. induction m as [|[k' v] rest IH]; simpl; [tauto|].
  destruct (String.eqb_spec k k') as [->|Hne].
  - split; [discriminate | intros H; exfalso; apply H; now left].
  - rewrite IH. split; [intros H [E|Hin]; [congruence | now apply H] | tauto].
Qed.

Lemma TMap_find_key {V : Type} (m : TMap V) (k : string) (v : V) :
  TMap_find m k = Some v -> In (k, v) m.
Proof.
  induction m as [|[k' v'] rest IH]; simpl; [discriminate|].
  destruct (String.eqb_spec k k') as [->|Hne].
  - intros [= ->]. now left.
  - intros H. right. now apply IH.
Qed.

Lemma keys_ascending_head_absent {V : Type} (m : TMap V) (k k' : string) :
  (forall k0, In k0 (TMap_keys m) -> String.compare k' k0 = Lt) ->
  String.compare k k' = Lt \/ k = k' ->
  TMap_find m k = None.
Proof.
  intros Hall Hk. apply TMap_find_not_key. intros Hin.
  specialize (Hall k Hin). destruct Hk as [Hlt | ->].
  - pose proof (string_compare_lt_trans _ _ _ Hlt Hall) as Hkk.
    rewrite string_compare_refl in Hkk. discriminate.
  - rewrite string_compare_refl in Hall. discriminate.
Qed.

Lemma TMap_upsert_ascending {V : Type} (m : TMap V) (name : string) (d : V)
    (f : V -> V) :
  keys_ascending (TMap_keys m) -> keys_ascending (TMap_keys (TMap_upsert m name d f)).
Proof.
  unfold TMap_keys. induction m as [|[k' v] rest IH]; simpl.
  - intros _. split; [intros k' [] | exact I].
  - intros [Hhead Hrest]. destruct (String.compare name k') eqn:E; simpl.
    + split; assumption.
    + split; [|split; assumption].
      intros k0 [<- | Hin]; [exact E|].
      apply (string_compare_lt_trans _ _ _ E). now apply Hhead.
    + split; [|now apply IH].
      intros k0 Hin. apply (TMap_upsert_keys rest name d f k0) in Hin.
      destruct Hin as [-> | Hin]; [now apply string_compare_gt_lt | now apply Hhead].
Qed.

Lemma TMap_upsert_find {V : Type} (m : TMap V) (name : string) (d : V)
    (f : V -> V) (k : string) :
  keys_ascending (TMap_keys m) ->
  TMap_find (TMap_upsert m name d f) k
  = if String.eqb k name
    then Some (f match TMap_find m name with Some v => v | None => d end)
    else TMap_find m k.
Proof.
  induction m as [|[k' v] rest IH]; simpl.
  - intros _. now destruct (String.eqb k name).
  - intros [Hhead Hrest]. rewrite (string_compare_eqb name k').
    destruct (String.compare name k') eqn:E; simpl.
    + apply String.compare_eq_iff in E. subst k'.
      destruct (String.eqb k name); reflexivity.
    + rewrite (keys_ascending_head_absent rest name k' Hhead (or_introl E)).
      destruct (String.eqb k name); reflexivity.
    + rewrite IH by assumption.
      destruct (String.eqb_spec k k') as [->|Hne]; [|reflexivity].
      destruct (String.eqb_spec k' name) as [->|_]; [|reflexivity].
      rewrite string_compare_refl in E. discriminate.
Qed.

Lemma keys_ascending_NoDup (keys : list string) : keys_ascending keys -> NoDup keys.
Proof.
  induction keys as [|k rest IH]; simpl; [constructor|].
  intros [Hhead Hrest]. constructor; [|now apply IH].
  intros Hin. specialize (Hhead k Hin).
  rewrite string_compare_refl in Hhead. discriminate.
Qed.

Lemma samples_of_UpdateResult (r : TResults) (name : string) (time : double)
    (k : string) :
  registry_sorted r ->
  samples_of (UpdateResult name time r) k
  = if String.eqb k name then samples_of r name ++ [time] else samples_of r k.
Proof.
  intros Hs. unfold samples_of, UpdateResult. cbn [Results].
  rewrite TMap_upsert_find by exact Hs.
  destruct (String.eqb k name); [|reflexivity].
  destruct (TMap_find (Results r) name); reflexivity.
Qed.

Lemma UpdateResult_sorted (r : TResults) (name : string) (time : double) :
  registry_sorted r -> registry_sorted (UpdateResult name time r).
Proof. intros Hs. unfold registry_sorted, UpdateResult. now apply TMap_upsert_ascending. Qed.

Lemma UpdateResult_all_sampled (r : TResults) (name : string) (time : double) :
  all_sampled r -> all_sampled (UpdateResult name time r).
Proof.
  unfold all_sampled, UpdateResult. cbn [Results].
  induction (Results r) as [|[k' v] rest IH]; simpl; intros Hall.
  - constructor; [|constructor]. simpl. discriminate.
  - inversion Hall as [|? ? Hv Hrest]; subst.
    destruct (String.compare name k'); constructor; simpl; auto.
    + intros H. now destruct (Times v).
    + discriminate.
Qed.

(** X1: [UpdateResult(name, time)] appends [time] after the samples already
    recorded under [name] (creating the name when it is new), leaves the
    samples of every other name and the name of the baseline as they are,
    and keeps the keys in strictly ascending order. *)
Theorem UpdateResult_appends (r : TResults) (name : string) (time : double) :
  registry_sorted r ->
  let r' := UpdateResult name time r in
  samples_of r' name = samples_of r name ++ [time]
  /\ (forall k, k <> name -> samples_of r' k = samples_of r k)
  /\ BaseResultName r' = BaseResultName r
  /\ registry_sorted r'
  /\ (forall k, In k (TMap_keys (Results r')) <-> k = name \/ In k (TMap_keys (Results r))).
Proof.
  intros Hs. cbv zeta. repeat split.
  - rewrite samples_of_UpdateResult by exact Hs. now rewrite String.eqb_refl.
  - intros k Hk. rewrite samples_of_UpdateResult by exact Hs.
    destruct (String.eqb_spec k name); [contradiction | reflexivity].
  - now apply UpdateResult_sorted.
  - intros H. now apply TMap_upsert_keys in H.
  - intros H. now apply TMap_upsert_keys.
Qed.

Lemma UpdateResult_appends_witness :
  registry_sorted example_registry
  /\ samples_of (UpdateResult "B" double_one example_registry) "B"
     = [Double.zero; double_one]
  /\ TMap_keys (Results (UpdateResult "A" double_one example_registry)) = ["A"; "B"; "D"].
Proof.
  assert (Hs : registry_sorted example_registry).
  { cbv. repeat split; intros k' H;
      repeat (destruct H as [<- | H]; [reflexivity|]); destruct H. }
  split; [exact Hs|]. split; [|reflexivity].
  destruct (UpdateResult_appends example_registry "B" double_one Hs) as [H _].
  rewrite H. reflexivity.
Defined.

(** X2: in the registry built from nothing by a sequence of [UpdateResult]
    calls, the samples of a name are the times of the calls made for that
    name, in the order of the calls; the keys are the names used, each once
    and in ascending order; and no aggregator is empty. *)
Theorem UpdateResult_history (updates : list (string * double)) :
  let r := UpdateResult_all updates TResults_empty in
  (forall k, samples_of r k
             = map snd (filter (fun u => String.eqb k (fst u)) updates))
  /\ (forall k, In k (TMap_keys (Results r)) <-> In k (map fst updates))
  /\ keys_ascending (TMap_keys (Results r))
  /\ NoDup (TMap_keys (Results r))
  /\ all_sampled r.
Proof.
  cbv zeta.
  assert (Hgen : forall (us : list (string * double)) (r : TResults),
            registry_sorted r -> all_sampled r ->
            (forall k, samples_of (UpdateResult_all us r) k
                       = samples_of r k
                         ++ map snd (filter (fun u => String.eqb k (fst u)) us))
            /\ (forall k, In k (TMap_keys (Results (UpdateResult_all us r)))
                          <-> In k (TMap_keys (Results r)) \/ In k (map fst us))
            /\ registry_sorted (UpdateResult_all us r)
            /\ all_sampled (UpdateResult_all us r)).
  { induction us as [|[name time] us IH]; intros r Hs Ha.
    - simpl. split; [intros k; now rewrite app_nil_r|].
      split; [intros k; tauto|]. split; assumption.
    - unfold UpdateResult_all. cbn [fold_left fst snd].
      fold (UpdateResult_all us (UpdateResult name time r)).
      destruct (IH (UpdateResult name time r) (UpdateResult_sorted r name time Hs)
                  (UpdateResult_all_sampled r name time Ha)) as [H1 [H2 [H3 H4]]].
      repeat split; try assumption.
      + intros k. rewrite H1, samples_of_UpdateResult by exact Hs.
        cbn [filter fst]. destruct (String.eqb_spec k name) as [->|Hne].
        * rewrite <- app_assoc. reflexivity.
        * reflexivity.
      + intros H. apply H2 in H. destruct H as [H | H]; [|right; now right].
        apply TMap_upsert_keys in H.
        destruct H as [-> | H]; [right; now left | now left].
      + intros H. apply H2. destruct H as [H | [<- | H]].
        * left. apply TMap_upsert_keys. now right.
        * left. apply TMap_upsert_keys. now left.
        * now right. }
  destruct (Hgen updates TResults_empty) as [H1 [H2 [H3 H4]]];
    [exact I | constructor |].
  repeat split; try assumption.
  - intros H. apply H2 in H. destruct H as [[] | H]. exact H.
  - intros H. apply H2. now right.
  - now apply keys_ascending_NoDup.
Qed.

(** ** Timing aggregator *)

Lemma ltb_irrefl (x : double) : Double.ltb x x = false.
Proof.
  unfold Double.ltb, SFltb.
  destruct x as [s|s| |s m e]; simpl; try reflexivity.
  - destruct s; reflexivity.
  - change (Pos.compare_cont Eq m m) with (Pos.compare m m).
    rewrite Z.compare_refl, Pos.compare_refl. destruct s; reflexivity.
Qed.

Lemma ltb_trans (x y z : double) :
  Double.ltb x y = true -> Double.ltb y z = true -> Double.ltb x z = true.
Proof.
  unfold Double.ltb, SFltb.
  destruct x as [sx|sx| |sx mx ex], y as [sy|sy| |sy my ey], z as [sz|sz| |sz mz ez];
    simpl; try discriminate; try reflexivity;
    try (destruct sx; try discriminate; try reflexivity);
    try (destruct sy; try discriminate; try reflexivity);
    try (destruct sz; try discriminate; try reflexivity).
  all: change (Pos.compare_cont Eq) with Pos.compare.
  all: destruct (Z.compare_spec ex ey), (Z.compare_spec ey ez), (Z.compare_spec ex ez);
    try discriminate; try reflexivity; try lia.
  all: subst.
  all: destruct (Pos.compare_spec mx my), (Pos.compare_spec my mz),
         (Pos.compare_spec mx mz); simpl; try discriminate; try reflexivity; try lia.
Qed.

(** What is not below the smallest element so far is not below the result. *)
Lemma MinElement_from_keeps (rest : list double) :
  forall x y : double,
    Double.ltb y x = false -> Double.ltb y (MinElement_from x rest) = false.
Proof.
  induction rest as [|a rest IH]; intros x y Hy; [exact Hy|].
  cbn [MinElement_from]. apply IH.
  destruct (Double.ltb a x) eqn:E; [|exact Hy].
  destruct (Double.ltb y a) eqn:Hya; [|reflexivity].
  pose proof (ltb_trans _ _ _ Hya E). congruence.
Qed.

Lemma MinElement_from_spec (rest : list double) :
  forall x : double,
    In (MinElement_from x rest) (x :: rest)
    /\ forall y, In y (x :: rest) -> Double.ltb y (MinElement_from x rest) = false.
Proof.
  induction rest as [|a rest IH]; intros x.
  - simpl. split; [now left|]. intros y [<- | []]. apply ltb_irrefl.
  - cbn [MinElement_from].
    destruct (IH (if Double.ltb a x then a else x)) as [Hin Hlow]. split.
    + destruct Hin as [Hin | Hin]; [|right; now right].
      rewrite <- Hin. destruct (Double.ltb a x); [right; now left | now left].
    + intros y [<- | [<- | Hy]].
      * apply MinElement_from_keeps. destruct (Double.ltb a x) eqn:E;
          [|apply ltb_irrefl].
        destruct (Double.ltb x a) eqn:Hxa; [|reflexivity].
        pose proof (ltb_trans _ _ _ Hxa E) as Hxx.
        rewrite ltb_irrefl in Hxx. discriminate.
      * apply MinElement_from_keeps.
        destruct (Double.ltb a x) eqn:E; [apply ltb_irrefl | exact E].
      * apply Hlow. now right.
Qed.

Lemma MaxElement_from_keeps (rest : list double) :
  forall x y : double,
    Double.ltb x y = false -> Double.ltb (MaxElement_from x rest) y = false.
Proof.
  induction rest as [|a rest IH]; intros x y Hy; [exact Hy|].
  cbn [MaxElement_from]. apply IH.
  destruct (Double.ltb x a) eqn:E; [|exact Hy].
  destruct (Double.ltb a y) eqn:Hay; [|reflexivity].
  pose proof (ltb_trans _ _ _ E Hay). congruence.
Qed.

Lemma MaxElement_from_spec (rest : list double) :
  forall x : double,
    In (MaxElement_from x rest) (x :: rest)
    /\ forall y, In y (x :: rest) -> Double.ltb (MaxElement_from x rest) y = false.
Proof.
  induction rest as [|a rest IH]; intros x.
  - simpl. split; [now left|]. intros y [<- | []]. apply ltb_irrefl.
  - cbn [MaxElement_from].
    destruct (IH (if Double.ltb x a then a else x)) as [Hin Hlow]. split.
    + destruct Hin as [Hin | Hin]; [|right; now right].
      rewrite <- Hin. destruct (Double.ltb x a); [right; now left | now left].
    + intros y [<- | [<- | Hy]].
      * apply MaxElement_from_keeps. destruct (Double.ltb x a) eqn:E;
          [|apply ltb_irrefl].
        destruct (Double.ltb a x) eqn:Hax; [|reflexivity].
        pose proof (ltb_trans _ _ _ E Hax) as Hxx.
        rewrite ltb_irrefl in Hxx. discriminate.
      * apply MaxElement_from_keeps.
        destruct (Double.ltb x a) eqn:E; [apply ltb_irrefl | exact E].
      * apply Hlow. now right.
Qed.

(** X3: of an aggregator that holds a sample, [Min()] and [Max()] are among
    the samples, no sample compares below [Min()] and [Max()] compares
    below no sample (with [operator<] on doubles, so also in the presence
    of NaN samples).  Of an aggregator without sample they dereference the
    end iterator. *)
Theorem Min_Max_bounds (t : TTimingResult) :
  (Times t = [] -> Min t = None /\ Max t = None)
  /\ (Times t <> [] ->
      exists mn mx,
        Min t = Some mn /\ Max t = Some mx
        /\ In mn (Times t) /\ In mx (Times t)
        /\ forall y, In y (Times t) ->
             Double.ltb y mn = false /\ Double.ltb mx y = false).
Proof.
  unfold Min, Max. destruct (Times t) as [|x rest].
  - split; [intros _; split; reflexivity | intros H; now contradiction H].
  - split; [discriminate|]. intros _.
    destruct (MinElement_from_spec rest x) as [Hmin Hlow].
    destruct (MaxElement_from_spec rest x) as [Hmax Hhigh].
    exists (MinElement_from x rest), (MaxElement_from x rest).
    repeat split; auto.
Qed.

Lemma Min_Max_bounds_witness :
  Times (Add double_one (Add double_two TTimingResult_empty)) <> []
  /\ Min (Add double_one (Add double_two TTimingResult_empty)) = Some double_one
  /\ exists mx, Max (Add double_one (Add double_two TTimingResult_empty)) = Some mx
                /\ Double.ltb mx double_two = false.
Proof.
  split; [discriminate|]. split; [vm_compute; reflexivity|].
  destruct (Min_Max_bounds (Add double_one (Add double_two TTimingResult_empty)))
    as [_ H].
  destruct H as [mn [mx [_ [Hmx [_ [_ Hall]]]]]]; [discriminate|].
  exists mx. split; [exact Hmx|]. apply (Hall double_two). now left.
Defined.

(** ** The report of a registry *)

Lemma NoDup_map_fst_find {V : Type} (m : TMap V) (k : string) (v : V) :
  NoDup (TMap_keys m) -> In (k, v) m -> TMap_find m k = Some v.
Proof.
  unfold TMap_keys. induction m as [|[k' v'] rest IH]; simpl; [intros _ []|].
  intros Hnd [[= -> ->] | Hin].
  - now rewrite String.eqb_refl.
  - inversion Hnd as [|? ? Hnotin Hrest]; subst.
    destruct (String.eqb_spec k k') as [->|Hne]; [|now apply IH].
    exfalso. apply Hnotin. apply in_map_iff. exists (k', v). split; [reflexivity | exact Hin].
Qed.

Lemma Min_defined (t : TTimingResult) : Times t <> [] -> exists mn, Min t = Some mn.
Proof. unfold Min. destruct (Times t); [congruence | intros _; eexists; reflexivity]. Qed.

Lemma Max_defined (t : TTimingResult) : Times t <> [] -> exists mx, Max t = Some mx.
Proof. unfold Max. destruct (Times t); [congruence | intros _; eexists; reflexivity]. Qed.

Lemma Output_defined (t : TTimingResult) (ref : option TTimingResult) :
  Times t <> [] -> (forall r, ref = Some r -> Times r <> []) ->
  exists l, Output t ref = Some l.
Proof.
  intros Ht Href. unfold Output.
  destruct (Min_defined t Ht) as [mn ->], (Max_defined t Ht) as [mx ->].
  destruct ref as [r|]; [|eexists; reflexivity].
  destruct (Min_defined r (Href r eq_refl)) as [rmn ->].
  destruct (Max_defined r (Href r eq_refl)) as [rmx ->]. eexists; reflexivity.
Qed.

Lemma GetJsonValue_defined (t : TTimingResult) :
  Times t <> [] -> exists j, GetJsonValue t = Some j.
Proof.
  intros Ht. unfold GetJsonValue.
  destruct (Min_defined t Ht) as [mn ->], (Max_defined t Ht) as [mx ->].
  eexists; reflexivity.
Qed.

Lemma render_others_defined (base : string) (ref : option TTimingResult)
    (m : TMap TTimingResult) :
  Forall (fun kv => Times (snd kv) <> []) m ->
  (forall r, ref = Some r -> Times r <> []) ->
  exists ls js,
    render_others base ref m = Some (ls, js)
    /\ map fst js = filter (fun k => negb (String.eqb k base)) (TMap_keys m)
    /\ forall k j, In (k, j) js -> exists t, In (k, t) m /\ GetJsonValue t = Some j.
Proof.
  intros Hall Href. induction Hall as [|[key value] rest Hv Hrest IH].
  - exists [], []. repeat split. intros k j [].
  - destruct IH as [ls [js [Hr [Hk Hj]]]]. cbn [render_others TMap_keys map fst filter].
    fold (TMap_keys rest).
    destruct (String.eqb key base); cbn [negb].
    + exists ls, js. repeat split; try assumption.
      intros k j Hin. destruct (Hj k j Hin) as [t [Ht Hg]]. exists t. split; [now right | exact Hg].
    + destruct (Output_defined value ref Hv Href) as [l ->].
      destruct (GetJsonValue_defined value Hv) as [j Hjv]. rewrite Hjv, Hr.
      eexists; eexists. split; [reflexivity|]. split; [simpl; now rewrite Hk|].
      intros k j' [[= <- <-] | Hin].
      * exists value. split; [now left | exact Hjv].
      * destruct (Hj k j' Hin) as [t [Ht Hg]]. exists t. split; [now right | exact Hg].
Qed.

(** [OutputResults] on a registry it can report. *)
Lemma OutputResults_returns (r : TResults) :
  all_sampled r ->
  BaseResultName r = EmptyString \/ In (BaseResultName r) (TMap_keys (Results r)) ->
  report_status (OutputResults r) = Returned
  /\ exists js,
       results_json (OutputResults r) = Some js
       /\ map fst js = json_names (BaseResultName r) (TMap_keys (Results r))
       /\ forall k j, In (k, j) js ->
            exists t, In (k, t) (Results r) /\ GetJsonValue t = Some j.
Proof.
  intros Hall Hbase. unfold OutputResults, json_names.
  destruct (String.eqb_spec (BaseResultName r) EmptyString) as [E|E].
  - destruct (render_others_defined (BaseResultName r) None (Results r) Hall)
      as [ls [js [-> [Hk Hj]]]]; [discriminate|].
    cbn [report_status results_json]. split; [reflexivity|].
    exists js. repeat split; assumption.
  - destruct Hbase as [Hbase | Hbase]; [contradiction|].
    destruct (TMap_find (Results r) (BaseResultName r)) as [ref|] eqn:Hfind;
      [|apply TMap_find_not_key in Hfind; contradiction].
    pose proof (TMap_find_key _ _ _ Hfind) as Hin.
    assert (Href : Times ref <> []).
    { unfold all_sampled in Hall. rewrite Forall_forall in Hall. exact (Hall _ Hin). }
    destruct (Output_defined ref (Some ref) Href) as [l ->];
      [intros r0 [= <-]; exact Href|].
    destruct (GetJsonValue_defined ref Href) as [j Hjv]. rewrite Hjv.
    destruct (render_others_defined (BaseResultName r) (Some ref) (Results r) Hall)
      as [ls [js [-> [Hk Hj]]]]; [intros r0 [= <-]; exact Href|].
    cbn [report_status results_json]. split; [reflexivity|].
    exists ((BaseResultName r, j) :: js). split; [reflexivity|].
    split; [simpl; now rewrite Hk|].
    intros k j' [[= <- <-] | Hin']; [exists ref; split; assumption | now apply Hj].
Qed.


(** X4: when every aggregator holds a sample and the baseline, if one is
    named, is a key of the registry, [OutputResults] returns and writes
    [results.json] with one entry per name: the baseline first, then the
    other keys in the order of the map, each with the statistics of its
    aggregator.  The loop skips the key equal to [BaseResultName] also when
    no baseline is named, so a key that is the empty string gets no entry
    then. *)
Theorem OutputResults_writes_every_name (r : TResults) :
  all_sampled r ->
  registry_sorted r ->
  BaseResultName r = EmptyString \/ In (BaseResultName r) (TMap_keys (Results r)) ->
  report_status (OutputResults r) = Returned
  /\ exists js,
       results_json (OutputResults r) = Some js
       /\ map fst js = json_names (BaseResultName r) (TMap_keys (Results r))
       /\ NoDup (map fst js)
       /\ forall k j, In (k, j) js ->
            exists t, TMap_find (Results r) k = Some t /\ GetJsonValue t = Some j.
Proof.
  intros Hall Hsorted Hbase.
  destruct (OutputResults_returns r Hall Hbase) as [Hret [js [Hj [Hn Hentries]]]].
  split; [exact Hret|]. exists js. split; [exact Hj|]. split; [exact Hn|].
  pose proof (keys_ascending_NoDup _ Hsorted) as Hnodup.
  split.
  - rewrite Hn. unfold json_names.
    assert (Hf : NoDup (filter (fun k => negb (String.eqb k (BaseResultName r)))
                          (TMap_keys (Results r)))) by (now apply NoDup_filter).
    destruct (String.eqb (BaseResultName r) EmptyString); [exact Hf|].
    cbn [app]. constructor; [|exact Hf].
    intros Hin. apply filter_In in Hin. destruct Hin as [_ Hneq].
    now rewrite String.eqb_refl in Hneq.
  - intros k j Hin. destruct (Hentries k j Hin) as [t [Ht Hg]].
    exists t. split; [|exact Hg].
    apply NoDup_map_fst_find; assumption.
Qed.

Lemma OutputResults_writes_every_name_witness :
  all_sampled unnamed_registry
  /\ TMap_keys (Results unnamed_registry) = [EmptyString]
  /\ report_status (OutputResults unnamed_registry) = Returned
  /\ results_json (OutputResults unnamed_registry) = Some [].
Proof.
  assert (Ha : all_sampled unnamed_registry).
  { constructor; [discriminate | constructor]. }
  split; [exact Ha|]. split; [reflexivity|].
  assert (Hso : registry_sorted unnamed_registry)
    by (split; [intros k' [] | exact I]).
  destruct (OutputResults_writes_every_name unnamed_registry Ha Hso (or_introl eq_refl))
    as [Hs [js [Hj [Hn _]]]].
  split; [exact Hs|]. rewrite Hj. destruct js as [|e js]; [reflexivity|].
  vm_compute in Hn. discriminate.
Defined.

(** ** Counting the samples *)

Lemma for_loop_adds {St : Type} (inv : St -> Prop) (measure : St -> Z) (delta : Z)
    (n : Z) (body : Z -> St -> St) (s : St) :
  0 <= n -> inv s ->
  (forall i s', inv s' -> inv (body i s') /\ measure (body i s') = measure s' + delta) ->
  inv (for_loop n body s) /\ measure (for_loop n body s) = measure s + n * delta.
Proof.
  intros Hn Hs Hbody. unfold for_loop.
  assert (Hk : forall k : nat,
            inv (fold_left (fun acc i => body i acc) (indices (Z.of_nat k)) s)
            /\ measure (fold_left (fun acc i => body i acc) (indices (Z.of_nat k)) s)
               = measure s + Z.of_nat k * delta).
  { induction k as [|k [IHi IHm]].
    - simpl. split; [exact Hs | lia].
    - rewrite indices_succ, fold_left_app. cbn [fold_left].
      destruct (Hbody (Z.of_nat k) _ IHi) as [Hi Hm]. split; [exact Hi|].
      rewrite Hm, IHm, Nat2Z.inj_succ. ring. }
  specialize (Hk (Z.to_nat n)). now rewrite Z2Nat.id in Hk by exact Hn.
Qed.

Section Counting.
Variable World : Type.
Variable name : string.

Lemma run_block_adds (name' : string) (m : IPerftestModule World)
    (layout : EPerftestModuleDataLayout) (views : list (list TConstArrayRef))
    (blockId : Z) (s : TResults * World) :
  registry_sorted (fst s) ->
  registry_sorted (fst (run_block name' m layout views blockId s))
  /\ recorded name (run_block name' m layout views blockId s)
     = recorded name s + (if String.eqb name name' then 1 else 0).
Proof.
  intros Hs. unfold run_block, recorded.
  destruct (Do m layout (vec_get [] views blockId) (snd s)) as [time w']. cbn [fst].
  split; [now apply UpdateResult_sorted|].
  rewrite samples_of_UpdateResult by exact Hs.
  destruct (String.eqb_spec name name') as [<-|_]; [|lia].
  rewrite length_app. cbn [List.length]. lia.
Qed.

Lemma run_module_adds (blockCount : Z) (blocks : TBlocks)
    (s : TResults * World) (m : IPerftestModule World) :
  0 <= blockCount -> registry_sorted (fst s) ->
  registry_sorted (fst (run_module blockCount blocks s m))
  /\ recorded name (run_module blockCount blocks s m)
     = recorded name s
       + blockCount * (if String.eqb name (GetName m ObjectsFirst)
                       then layouts_run m else 0).
Proof.
  intros Hn Hs. unfold run_module, layouts_run.
  assert (Hloop : forall layout views s0,
            registry_sorted (fst s0) ->
            registry_sorted
              (fst (for_loop blockCount
                      (run_block (GetName m ObjectsFirst) m layout views) s0))
            /\ recorded name (for_loop blockCount
                           (run_block (GetName m ObjectsFirst) m layout views) s0)
               = recorded name s0
                 + blockCount * (if String.eqb name (GetName m ObjectsFirst)
                                 then 1 else 0)).
  { intros layout views s0 Hs0.
    apply (for_loop_adds (fun s' => registry_sorted (fst s')) (recorded name)); auto.
    intros i s' Hs'. now apply run_block_adds. }
  destruct (SupportsLayout m ObjectsFirst), (SupportsLayout m FeaturesFirst);
    cbn [Z.b2z].
  - destruct (Hloop ObjectsFirst (nonTranspFactorsRef blocks) s Hs) as [H1 E1].
    destruct (Hloop FeaturesFirst (transpFactorsRef blocks) _ H1) as [H2 E2].
    split; [exact H2|]. rewrite E2, E1.
    destruct (String.eqb name (GetName m ObjectsFirst)); lia.
  - destruct (Hloop ObjectsFirst (nonTranspFactorsRef blocks) s Hs) as [H1 E1].
    split; [exact H1|]. rewrite E1.
    destruct (String.eqb name (GetName m ObjectsFirst)); lia.
  - destruct (Hloop FeaturesFirst (transpFactorsRef blocks) s Hs) as [H1 E1].
    split; [exact H1|]. rewrite E1.
    destruct (String.eqb name (GetName m ObjectsFirst)); lia.
  - split; [exact Hs|]. destruct (String.eqb name (GetName m ObjectsFirst)); lia.
Qed.

Lemma run_repetition_adds (blockCount : Z) (blocks : TBlocks)
    (mods : list (IPerftestModule World)) :
  0 <= blockCount ->
  forall s : TResults * World,
    registry_sorted (fst s) ->
    registry_sorted (fst (run_repetition blockCount blocks mods s))
    /\ recorded name (run_repetition blockCount blocks mods s)
       = recorded name s + blockCount * loops_recorded_under name mods.
Proof.
  intros Hn. unfold run_repetition.
  induction mods as [|m mods IH]; intros s Hs.
  - simpl. split; [exact Hs | lia].
  - cbn [fold_left loops_recorded_under].
    destruct (run_module_adds blockCount blocks s m Hn Hs) as [H1 E1].
    destruct (IH _ H1) as [H2 E2]. split; [exact H2|]. rewrite E2, E1. lia.
Qed.

Lemma run_all_adds (repetitions blockCount : Z) (blocks : TBlocks)
    (mods : list (IPerftestModule World)) (s : TResults * World) :
  0 <= repetitions -> 0 <= blockCount -> registry_sorted (fst s) ->
  registry_sorted (fst (run_all repetitions blockCount blocks mods s))
  /\ recorded name (run_all repetitions blockCount blocks mods s)
     = recorded name s
       + repetitions * (blockCount * loops_recorded_under name mods).
Proof.
  intros Hr Hn Hs. unfold run_all.
  apply (for_loop_adds (fun s' => registry_sorted (fst s')) (recorded name)); auto.
  intros _ s' Hs'. now apply run_repetition_adds.
Qed.
End Counting.

(** ** The run: samples, exit code *)

Lemma run_all_preserves (World : Type) (P : TResults -> Prop)
    (repetitions blockCount : Z) (blocks : TBlocks)
    (mods : list (IPerftestModule World)) (st : TResults * World) :
  (forall name time r, P r -> P (UpdateResult name time r)) ->
  P (fst st) -> P (fst (run_all repetitions blockCount blocks mods st)).
Proof.
  intros Hupd Hst. unfold run_all.
  apply (for_loop_invariant (fun s => P (fst s))); [exact Hst|].
  intros _ s1 _ H1. unfold run_repetition.
  apply (fold_left_invariant (fun s => P (fst s))); [|exact H1].
  intros s2 m _ H2. unfold run_module.
  assert (Hblock : forall name layout views n s,
            P (fst s) -> P (fst (for_loop n (run_block name m layout views) s))).
  { intros name layout views n s Hs.
    apply (for_loop_invariant (fun s => P (fst s))); [exact Hs|].
    intros i s' _ Hs'. unfold run_block.
    destruct (Do m layout (vec_get [] views i) (snd s')) as [time w'].
    cbn [fst]. now apply Hupd. }
  destruct (SupportsLayout m ObjectsFirst), (SupportsLayout m FeaturesFirst);
    repeat apply Hblock; exact H2.
Qed.

Lemma constructed_state_registry (World TFullModel : Type)
    (factory : TPerftestModuleFactory World TFullModel) (model : TFullModel) :
  Results (results (construct_modules factory model (GetRegisteredKeys factory)
                      (initial_state World))) = [].
Proof.
  destruct (@construct_modules_spec World TFullModel factory model
              (GetRegisteredKeys factory) (initial_state World)) as [_ [_ [Hr _]]].
  exact Hr.
Qed.

Lemma loops_recorded_under_none (World : Type) (name : string)
    (mods : list (IPerftestModule World)) :
  (forall m, In m mods -> GetName m ObjectsFirst <> name) ->
  loops_recorded_under name mods = 0.
Proof.
  induction mods as [|m mods IH]; intros Hnone; [reflexivity|].
  cbn [loops_recorded_under].
  destruct (String.eqb_spec name (GetName m ObjectsFirst)) as [E|_].
  - exfalso. apply (Hnone m); [now left | now symmetry].
  - rewrite IH; [reflexivity|]. intros m' Hm'. apply Hnone. now right.
Qed.

Lemma loops_recorded_under_nonneg (World : Type) (name : string)
    (mods : list (IPerftestModule World)) :
  0 <= loops_recorded_under name mods.
Proof.
  induction mods as [|m mods IH]; [reflexivity|]. cbn [loops_recorded_under].
  unfold layouts_run.
  destruct (String.eqb name (GetName m ObjectsFirst)),
    (SupportsLayout m ObjectsFirst), (SupportsLayout m FeaturesFirst);
    cbn [Z.b2z]; lia.
Qed.

(** The number of samples under each name at the end of a run. *)
Lemma DoMain_sample_count (World TFullModel : Type)
    (options : TCMDOptions) (model : TFullModel) (dataset : TDataProvider)
    (factory : TPerftestModuleFactory World TFullModel) (w : World)
    (getFeatureDataBeginPtr : Z -> Z -> float) :
  RawObjectsData dataset = Some getFeatureDataBeginPtr ->
  0 < effectiveBlockSize options dataset ->
  0 <= RepetitionCount options ->
  let run := DoMain options model dataset factory w in
  let blockCount :=
    blockCount_of (effectiveBlockSize options dataset) (GetObjectCount dataset) in
  registry_sorted (run_results run)
  /\ forall name,
       Z.of_nat (List.length (samples_of (run_results run) name))
       = RepetitionCount options * blockCount
         * loops_recorded_under name (run_modules run).
Proof.
  intros Hraw Hpos Hrep. cbv zeta.
  destruct (@DoMain_reached World TFullModel options model dataset factory w
              getFeatureDataBeginPtr Hraw Hpos) as [Hmods [_ [Hres _]]].
  rewrite Hmods, Hres.
  pose proof (constructed_state_registry World TFullModel factory model) as Hempty.
  assert (Hbc : 0 <= blockCount_of (effectiveBlockSize options dataset)
                       (GetObjectCount dataset)).
  { unfold blockCount_of. apply Z.div_pos; [|exact Hpos].
    unfold effectiveBlockSize in Hpos. lia. }
  assert (Hs0 : registry_sorted
                  (results (construct_modules factory model
                              (GetRegisteredKeys factory) (initial_state World)))).
  { unfold registry_sorted. rewrite Hempty. exact I. }
  split.
  - apply (run_all_preserves World registry_sorted); [|exact Hs0].
    intros name time r. apply UpdateResult_sorted.
  - intros name.
    destruct (run_all_adds World name (RepetitionCount options) _
                (build_blocks getFeatureDataBeginPtr (effectiveBlockSize options dataset)
                   (GetObjectCount dataset) (GetFeatureCount dataset)
                   (blockCount_of (effectiveBlockSize options dataset)
                      (GetObjectCount dataset)))
                (modules (construct_modules factory model
                            (GetRegisteredKeys factory) (initial_state World)))
                (results (construct_modules factory model
                            (GetRegisteredKeys factory) (initial_state World)), w)
                Hrep Hbc Hs0) as [_ Hcount].
    unfold recorded in Hcount. cbn [fst] in Hcount. rewrite Hcount.
    unfold samples_of at 1. rewrite Hempty. cbn [TMap_find List.length]. ring.
Qed.


(** X5: in a run that reaches the timed loop, the number of samples under a
    name is [RepetitionCount * blockCount] times the number of timed loops
    of the modules whose objects-first name it is, one loop per layout that
    a module supports; a name that is the objects-first name of no module
    has no sample.  The registry the report is made from has its keys in
    ascending order. *)
Theorem samples_per_name (World TFullModel : Type)
    (options : TCMDOptions) (model : TFullModel) (dataset : TDataProvider)
    (factory : TPerftestModuleFactory World TFullModel) (w : World)
    (getFeatureDataBeginPtr : Z -> Z -> float) :
  RawObjectsData dataset = Some getFeatureDataBeginPtr ->
  0 < effectiveBlockSize options dataset ->
  0 <= RepetitionCount options ->
  let run := DoMain options model dataset factory w in
  let blockCount :=
    blockCount_of (effectiveBlockSize options dataset) (GetObjectCount dataset) in
  registry_sorted (run_results run)
  /\ (forall name,
        Z.of_nat (List.length (samples_of (run_results run) name))
        = RepetitionCount options * blockCount
          * loops_recorded_under name (run_modules run))
  /\ (forall name,
        (forall m, In m (run_modules run) -> GetName m ObjectsFirst <> name) ->
        samples_of (run_results run) name = []).
Proof.
  intros Hraw Hpos Hrep. cbv zeta.
  destruct (DoMain_sample_count World TFullModel options model dataset factory w
              getFeatureDataBeginPtr Hraw Hpos Hrep) as [Hsorted Hcount].
  split; [exact Hsorted|]. split; [exact Hcount|].
  intros name Hnone. apply length_zero_iff_nil. apply Nat2Z.inj.
  rewrite Hcount, loops_recorded_under_none by exact Hnone. cbn [Z.of_nat]. ring.
Qed.

Lemma samples_per_name_witness :
  let run := DoMain (example_options 3 2) tt (example_pool 10) factory_ABC 0%nat in
  0 <= RepetitionCount (example_options 3 2)
  /\ List.length (samples_of (run_results run) "B") = 12%nat
  /\ List.length (samples_of (run_results run) "B_transposed") = 0%nat.
Proof.
  cbv zeta. split; [vm_compute; congruence|].
  destruct (samples_per_name nat unit (example_options 3 2) tt (example_pool 10)
              factory_ABC 0%nat _ eq_refl) as [_ [H _]].
  - vm_compute. reflexivity.
  - vm_compute. congruence.
  - split; apply Nat2Z.inj; rewrite H; vm_compute; reflexivity.
Defined.

Lemma DoMain_registry (World TFullModel : Type)
    (options : TCMDOptions) (model : TFullModel) (dataset : TDataProvider)
    (factory : TPerftestModuleFactory World TFullModel) (w : World) :
  all_sampled (run_results (DoMain options model dataset factory w)).
Proof.
  destruct (RawObjectsData dataset) as [ptr|] eqn:Hraw.
  - destruct (Z_lt_le_dec 0 (effectiveBlockSize options dataset)) as [Hpos|Hle].
    + destruct (@DoMain_reached World TFullModel options model dataset factory w
                  ptr Hraw Hpos) as [_ [_ [Hres _]]].
      rewrite Hres. apply (run_all_preserves World all_sampled).
      * intros name time r. apply UpdateResult_all_sampled.
      * cbn [fst]. unfold all_sampled.
        rewrite (constructed_state_registry World TFullModel factory model).
        constructor.
    + unfold DoMain. rewrite Hraw.
      destruct (Z.gtb_spec (effectiveBlockSize options dataset) 0); [lia|].
      constructor.
  - unfold DoMain. rewrite Hraw. constructor.
Qed.

Lemma DoMain_report (World TFullModel : Type)
    (options : TCMDOptions) (model : TFullModel) (dataset : TDataProvider)
    (factory : TPerftestModuleFactory World TFullModel) (w : World) :
  RawObjectsData dataset <> None ->
  0 < effectiveBlockSize options dataset ->
  let run := DoMain options model dataset factory w in
  run_status run = report_status (OutputResults (run_results run))
  /\ run_results_json run = results_json (OutputResults (run_results run))
  /\ run_report run = info_log (OutputResults (run_results run)).
Proof.
  intros Hraw Hpos. cbv zeta.
  destruct (RawObjectsData dataset) as [ptr|] eqn:E; [|congruence].
  destruct (@DoMain_reached World TFullModel options model dataset factory w
              ptr E Hpos) as [_ [_ [Hres [_ [Hst [Hrep [Hjs _]]]]]]].
  rewrite Hres, Hst, Hrep, Hjs. repeat split.
Qed.

(** X6: a run never dereferences the end of an empty aggregator, and its
    exit code is 0 or -1.  It is -1, with no [results.json], exactly when
    the pool is quantized, or the effective block size is zero, or the
    baseline is named and is not a key of the registry; otherwise it is 0
    and [results.json] has an entry for the baseline and for every other
    key. *)
Theorem exit_code_characterised (World TFullModel : Type)
    (options : TCMDOptions) (model : TFullModel) (dataset : TDataProvider)
    (factory : TPerftestModuleFactory World TFullModel) (w : World) :
  let run := DoMain options model dataset factory w in
  let process := main options model dataset factory w in
  let base := BaseResultName (run_results run) in
  let keys := TMap_keys (Results (run_results run)) in
  let fatal :=
    RawObjectsData dataset = None
    \/ effectiveBlockSize options dataset <= 0
    \/ (base <> EmptyString /\ ~ In base keys) in
  run_status run <> Undefined
  /\ (fatal -> exit_code process = Some (-1) /\ process_results_json process = None)
  /\ (~ fatal ->
      exit_code process = Some 0
      /\ exists js, process_results_json process = Some js
                    /\ map fst js = json_names base keys).
Proof.
  cbv zeta.
  assert (Hmain : forall e,
            run_status (DoMain options model dataset factory w) = Thrown e ->
            run_results_json (DoMain options model dataset factory w) = None ->
            exit_code (main options model dataset factory w) = Some (-1)
            /\ process_results_json (main options model dataset factory w) = None).
  { intros e He Hj. unfold main. rewrite He. cbn [exit_code process_results_json].
    split; [reflexivity | exact Hj]. }
  destruct (RawObjectsData dataset) as [ptr|] eqn:Hraw.
  2:{ assert (Hab : DoMain options model dataset factory w
                    = aborted (yexception "Not supported for quantized pools") w)
        by (unfold DoMain; now rewrite Hraw).
      split; [rewrite Hab; discriminate|]. split.
      - intros _. apply (Hmain (yexception "Not supported for quantized pools"));
          rewrite Hab; reflexivity.
      - intros H. exfalso. apply H. now left. }
  destruct (Z_lt_le_dec 0 (effectiveBlockSize options dataset)) as [Hpos|Hle].
  2:{ assert (Hab : DoMain options model dataset factory w
                    = aborted (yexception "Empty pool") w).
      { unfold DoMain. rewrite Hraw.
        destruct (Z.gtb_spec (effectiveBlockSize options dataset) 0); [lia | reflexivity]. }
      split; [rewrite Hab; discriminate|]. split.
      - intros _. apply (Hmain (yexception "Empty pool")); rewrite Hab; reflexivity.
      - intros H. exfalso. apply H. right. now left. }
  assert (Hsome : RawObjectsData dataset <> None) by congruence.
  destruct (DoMain_report World TFullModel options model dataset factory w Hsome Hpos)
    as [Hst [Hjs _]].
  pose proof (DoMain_registry World TFullModel options model dataset factory w) as Hall.
  set (run := DoMain options model dataset factory w) in *.
  destruct (String.eqb_spec (BaseResultName (run_results run)) EmptyString) as [Hb|Hb].
  - destruct (OutputResults_returns (run_results run) Hall (or_introl Hb))
      as [Hret [js [Hj [Hn _]]]].
    rewrite Hret in Hst. rewrite Hj in Hjs.
    split; [rewrite Hst; discriminate|]. split.
    + intros [H | [H | [H _]]]; [congruence | lia | contradiction].
    + intros _. unfold main. fold run. rewrite Hst.
      cbn [exit_code process_results_json]. split; [reflexivity|].
      exists js. split; assumption.
  - destruct (in_dec string_dec (BaseResultName (run_results run))
                (TMap_keys (Results (run_results run)))) as [Hin|Hout].
    + destruct (OutputResults_returns (run_results run) Hall (or_intror Hin))
        as [Hret [js [Hj [Hn _]]]].
      rewrite Hret in Hst. rewrite Hj in Hjs.
      split; [rewrite Hst; discriminate|]. split.
      * intros [H | [H | [_ H]]]; [congruence | lia | contradiction].
      * intros _. unfold main. fold run. rewrite Hst.
        cbn [exit_code process_results_json]. split; [reflexivity|].
        exists js. split; assumption.
    + assert (Hfind : TMap_find (Results (run_results run))
                        (BaseResultName (run_results run)) = None)
        by (now apply TMap_find_not_key).
      rewrite (OutputResults_missing_baseline _ Hb Hfind) in Hst, Hjs.
      cbn [report_status results_json] in Hst, Hjs.
      split; [rewrite Hst; discriminate|]. split.
      * intros _. now apply (Hmain _ Hst Hjs).
      * intros H. exfalso. apply H. right. right. split; assumption.
Qed.

Lemma exit_code_characterised_witness :
  exit_code (main (example_options 3 1) tt quantized_pool factory_ABC 0%nat) = Some (-1)
  /\ exit_code (main (example_options 3 1) tt (example_pool 10) factory_ABC 0%nat)
     = Some 0.
Proof.
  split.
  - destruct (exit_code_characterised nat unit (example_options 3 1) tt quantized_pool
                factory_ABC 0%nat) as [_ [H _]].
    apply H. now left.
  - vm_compute. reflexivity.
Defined.

Lemma main_exit_code (World TFullModel : Type)
    (options : TCMDOptions) (model : TFullModel) (dataset : TDataProvider)
    (factory : TPerftestModuleFactory World TFullModel) (w : World) :
  exit_code (main options model dataset factory w)
  = match run_status (DoMain options model dataset factory w) with
    | Returned => Some 0
    | Thrown _ => Some (-1)
    | Undefined => None
    end.
Proof. unfold main. now destruct (run_status (DoMain options model dataset factory w)). Qed.

(** X7: a run that reaches the report exits with -1 exactly when a baseline
    was chosen and no time was recorded under its name: the run has no
    repetition, or the name is the objects-first name of no module that
    supports a layout (as is the features-first name of the variant of
    highest priority, unless it is also an objects-first name).  Otherwise
    it exits with 0. *)
Theorem run_fails_when_baseline_unsampled (World TFullModel : Type)
    (options : TCMDOptions) (model : TFullModel) (dataset : TDataProvider)
    (factory : TPerftestModuleFactory World TFullModel) (w : World)
    (getFeatureDataBeginPtr : Z -> Z -> float) :
  RawObjectsData dataset = Some getFeatureDataBeginPtr ->
  0 < effectiveBlockSize options dataset ->
  0 <= RepetitionCount options ->
  let run := DoMain options model dataset factory w in
  let process := main options model dataset factory w in
  let base := BaseResultName (run_results run) in
  let unsampled :=
    base <> EmptyString
    /\ (RepetitionCount options = 0
        \/ loops_recorded_under base (run_modules run) = 0) in
  (unsampled -> exit_code process = Some (-1))
  /\ (~ unsampled -> exit_code process = Some 0).
Proof.
  intros Hraw Hpos Hrep. cbv zeta.
  destruct (DoMain_sample_count World TFullModel options model dataset factory w
              getFeatureDataBeginPtr Hraw Hpos Hrep) as [_ Hcount].
  assert (Hsome : RawObjectsData dataset <> None) by congruence.
  destruct (DoMain_report World TFullModel options model dataset factory w Hsome Hpos)
    as [Hst _].
  pose proof (DoMain_registry World TFullModel options model dataset factory w) as Hall.
  rewrite main_exit_code.
  assert (Hbc : 1 <= blockCount_of (effectiveBlockSize options dataset)
                       (GetObjectCount dataset)).
  { unfold blockCount_of. apply Z.div_le_lower_bound; [exact Hpos|].
    unfold effectiveBlockSize in *. lia. }
  set (run := DoMain options model dataset factory w) in *.
  specialize (Hcount (BaseResultName (run_results run))).
  pose proof (loops_recorded_under_nonneg World (BaseResultName (run_results run))
                (run_modules run)) as Hnn.
  destruct (String.eqb_spec (BaseResultName (run_results run)) EmptyString) as [Hb|Hb].
  - destruct (OutputResults_returns (run_results run) Hall (or_introl Hb)) as [Hret _].
    rewrite Hst, Hret. split; [intros [H _]; contradiction | reflexivity].
  - destruct (TMap_find (Results (run_results run)) (BaseResultName (run_results run)))
      as [t|] eqn:Hfind.
    + pose proof (TMap_find_key _ _ _ Hfind) as Hin.
      assert (Hkey : In (BaseResultName (run_results run))
                       (TMap_keys (Results (run_results run)))).
      { apply in_map_iff. exists (BaseResultName (run_results run), t). now split. }
      destruct (OutputResults_returns (run_results run) Hall (or_intror Hkey)) as [Hret _].
      rewrite Hst, Hret. split; [|reflexivity].
      intros [_ Hzero]. exfalso.
      assert (Ht : Times t <> []).
      { unfold all_sampled in Hall. rewrite Forall_forall in Hall. exact (Hall _ Hin). }
      unfold samples_of in Hcount. rewrite Hfind in Hcount.
      destruct (Times t) as [|x l]; [congruence|]. cbn [List.length] in Hcount.
      destruct Hzero as [H0 | H0]; rewrite H0 in Hcount; lia.
    + rewrite (OutputResults_missing_baseline _ Hb Hfind) in Hst.
      cbn [report_status] in Hst. rewrite Hst. split; [reflexivity|].
      intros Hnot. exfalso. apply Hnot. split; [exact Hb|].
      unfold samples_of in Hcount. rewrite Hfind in Hcount. cbn [List.length] in Hcount.
      destruct (Z.eq_dec (RepetitionCount options) 0) as [H0|H0]; [now left|right].
      nia.
Qed.

Lemma run_fails_when_baseline_unsampled_witness :
  let run := DoMain (example_options 3 1) tt (example_pool 10) factory_T 0%nat in
  BaseResultName (run_results run) = "T_transposed"
  /\ TMap_keys (Results (run_results run)) = ["T"]
  /\ exit_code (main (example_options 3 1) tt (example_pool 10) factory_T 0%nat)
     = Some (-1).
Proof.
  cbv zeta. split; [reflexivity|]. split; [reflexivity|].
  destruct (run_fails_when_baseline_unsampled nat unit (example_options 3 1) tt
              (example_pool 10) factory_T 0%nat _ eq_refl) as [H _].
  - vm_compute. reflexivity.
  - vm_compute. congruence.
  - apply H. split; [vm_compute; discriminate | right; vm_compute; reflexivity].
Defined.

(** X8: a pool without document, a block size of zero or a quantized pool
    makes [DoMain] throw before it looks at the factory: the process exits
    with -1 after the one message on [Cerr] (["Empty pool"] also for a
    block size of zero on a pool that has documents), no variant is
    constructed, nothing is timed and nothing is reported. *)
Theorem run_aborts_before_construction (World TFullModel : Type)
    (options : TCMDOptions) (model : TFullModel) (dataset : TDataProvider)
    (factory : TPerftestModuleFactory World TFullModel) (w : World) :
  0 <= BlockSize options -> 0 <= GetObjectCount dataset ->
  let run := DoMain options model dataset factory w in
  let process := main options model dataset factory w in
  let message :=
    match RawObjectsData dataset with
    | None => "Not supported for quantized pools"
    | Some _ => "Empty pool"
    end in
  RawObjectsData dataset = None \/ BlockSize options = 0 \/ GetObjectCount dataset = 0 ->
  exit_code process = Some (-1)
  /\ process_cerr process = [ExceptionMessage message]
  /\ process_report process = []
  /\ process_results_json process = None
  /\ run_modules run = []
  /\ Results (run_results run) = []
  /\ run_world run = w.
Proof.
  intros HB Hdocs. cbv zeta. intros Hcause.
  assert (Hab : DoMain options model dataset factory w
                = aborted (yexception
                             match RawObjectsData dataset with
                             | None => "Not supported for quantized pools"
                             | Some _ => "Empty pool"
                             end) w).
  { unfold DoMain. destruct (RawObjectsData dataset) as [ptr|]; [|reflexivity].
    destruct Hcause as [H | Hzero]; [discriminate|].
    destruct (Z.gtb_spec (effectiveBlockSize options dataset) 0) as [Hpos|_];
      [|reflexivity].
    unfold effectiveBlockSize in Hpos. lia. }
  unfold main. rewrite Hab. repeat split.
Qed.

Lemma run_aborts_before_construction_witness :
  0 <= BlockSize (example_options 0 1) /\ 0 <= GetObjectCount (example_pool 10)
  /\ process_cerr (main (example_options 0 1) tt (example_pool 10) factory_ABC 0%nat)
     = [ExceptionMessage "Empty pool"].
Proof.
  split; [vm_compute; congruence|]. split; [vm_compute; congruence|].
  destruct (run_aborts_before_construction nat unit (example_options 0 1) tt
              (example_pool 10) factory_ABC 0%nat) as [_ [H _]].
  - vm_compute. congruence.
  - vm_compute. congruence.
  - right. now left.
  - exact H.
Defined.

(** ** Canon validator: what is reported and what is kept *)

Lemma exceeds_incomparable (x r : double) : incomparable x r -> Canon.exceeds x r = false.
Proof.
  unfold Canon.exceeds. rewrite Epsilon_as_double.
  intros [-> | [-> | [s [-> ->]]]].
  - reflexivity.
  - destruct x; reflexivity.
  - destruct s; reflexivity.
Qed.

(** X9: [CheckOrSet] reports nothing at an index where the result or the
    reference is a NaN, or where both are the same infinity: the difference
    is a NaN there, and a NaN is not greater than [Epsilon]. *)
Theorem NaN_is_never_reported (c : Canon.TCanonData) (blockId : Z)
    (v stored : list double) (i : Z) :
  reference c blockId = Some stored ->
  0 <= i < Z.of_nat (List.length v) ->
  incomparable (vec_get Double.zero v i) (vec_get Double.zero stored i) ->
  forall d, In d (snd (fst (Canon.CheckOrSet c blockId v))) -> Canon.diag_i d <> i.
Proof.
  intros Hs Hi Hinc d Hd Hdi.
  destruct stored as [|r rs].
  - unfold reference in Hs. destruct (Z_lt_le_dec blockId 0) as [Hneg|Hnn].
    + unfold Canon.CheckOrSet in Hd. rewrite Hs in Hd. cbn [Canon.is_empty] in Hd.
      unfold vec_set in Hd. destruct (Z.ltb_spec blockId 0); [|lia].
      cbn [Canon.Results] in Hd. rewrite (vec_get_nth_error [] _ _ Hs) in Hd.
      destruct (_ =? _) in Hd; cbn [fst snd] in Hd; [|destruct Hd].
      destruct v; destruct Hd.
    + rewrite (@CheckOrSet_unset c blockId v Hnn Hs) in Hd. destruct Hd.
  - rewrite (CheckOrSet_set c blockId v Hs) in Hd by discriminate.
    destruct (Nat.eqb (List.length v) (List.length (r :: rs))); [|destruct Hd].
    cbn [fst snd] in Hd. apply compare_from_In in Hd.
    destruct Hd as [k [_ [_ [He Hd]]]]. subst d. cbn [Canon.diag_i] in Hdi.
    unfold vec_get in Hinc. replace (Z.to_nat i) with k in Hinc by lia.
    rewrite (exceeds_incomparable _ _ Hinc) in He. discriminate.
Qed.

Lemma NaN_is_never_reported_witness :
  reference canon_nan 0 = Some [S754_nan; double_one]
  /\ 0 <= 0 < Z.of_nat (List.length [double_two; double_two])
  /\ map Canon.diag_i (snd (fst (Canon.CheckOrSet canon_nan 0 [double_two; double_two])))
     = [1]
  /\ forall d, In d (snd (fst (Canon.CheckOrSet canon_nan 0 [double_two; double_two]))) ->
               Canon.diag_i d <> 0.
Proof.
  split; [reflexivity|]. split; [vm_compute; split; congruence|].
  split; [vm_compute; reflexivity|].
  apply (NaN_is_never_reported canon_nan 0 [double_two; double_two]
           [S754_nan; double_one] 0); [reflexivity | vm_compute; split; congruence|].
  right. now left.
Defined.

Lemma set_nth_length {A : Type} (v : list A) (n : nat) (x : A) :
  List.length (set_nth n x v) = List.length v.
Proof.
  revert n; induction v as [|h t IH]; intros [|n]; simpl; try reflexivity.
  now rewrite IH.
Qed.

Lemma vec_set_length {A : Type} (v : list A) (i : Z) (x : A) :
  List.length (vec_set v i x) = List.length v.
Proof. unfold vec_set. destruct (i <? 0); [reflexivity | apply set_nth_length]. Qed.

Lemma canon_after_cases (c : Canon.TCanonData) (blockId : Z) (v : list double) :
  fst (fst (Canon.CheckOrSet c blockId v)) = c
  \/ fst (fst (Canon.CheckOrSet c blockId v))
     = {| Canon.Results := vec_set (Canon.Results c) blockId v |}.
Proof.
  unfold Canon.CheckOrSet.
  destruct (nth_error (Canon.Results c) (Z.to_nat blockId)) as [stored|]; [|now left].
  destruct (Canon.is_empty stored); destruct (_ =? _); cbn [fst]; auto.
Qed.

(** X10: called for a block of the validator, with any result vector and
    however it ends, [CheckOrSet] keeps the number of blocks and the
    reference of every block other than the one it is called for. *)
Theorem CheckOrSet_touches_one_block (c : Canon.TCanonData) (blockId : Z)
    (v : list double) :
  0 <= blockId < Z.of_nat (List.length (Canon.Results c)) ->
  let c' := fst (fst (Canon.CheckOrSet c blockId v)) in
  snd (Canon.CheckOrSet c blockId v) <> Undefined
  /\ List.length (Canon.Results c') = List.length (Canon.Results c)
  /\ forall other : nat,
       other <> Z.to_nat blockId ->
       nth_error (Canon.Results c') other = nth_error (Canon.Results c) other.
Proof.
  intros Hrange. cbv zeta. split.
  { unfold Canon.CheckOrSet.
    destruct (nth_error (Canon.Results c) (Z.to_nat blockId)) as [stored|] eqn:E.
    - destruct (_ =? _); cbn [snd]; discriminate.
    - apply nth_error_None in E. lia. }
  destruct (canon_after_cases c blockId v) as [-> | ->].
  - split; [reflexivity | intros other _; reflexivity].
  - cbn [Canon.Results]. split; [apply vec_set_length|].
    intros other Hne. unfold vec_set. destruct (blockId <? 0); [reflexivity|].
    apply nth_error_set_nth_neq. congruence.
Qed.

Lemma set_nth_idem {A : Type} (v : list A) (n : nat) (x : A) :
  set_nth n x (set_nth n x v) = set_nth n x v.
Proof.
  revert n; induction v as [|h t IH]; intros [|n]; simpl; try reflexivity.
  now rewrite IH.
Qed.

(** X11: a result vector agrees with itself.  After a call of [CheckOrSet]
    on a block that was unset, the same call again returns, reports nothing
    (also for NaN and infinite values) and leaves the validator as it is. *)
Theorem CheckOrSet_twice (c : Canon.TCanonData) (blockId : Z) (v : list double) :
  0 <= blockId ->
  reference c blockId = Some [] ->
  let c1 := fst (fst (Canon.CheckOrSet c blockId v)) in
  snd (Canon.CheckOrSet c blockId v) = Returned
  /\ reference c1 blockId = Some v
  /\ Canon.CheckOrSet c1 blockId v = (c1, [], Returned).
Proof.
  intros Hb Hs. cbv zeta. unfold reference in Hs.
  rewrite (@CheckOrSet_unset c blockId v Hb Hs). cbn [fst snd].
  assert (Hlt : (Z.to_nat blockId < List.length (Canon.Results c))%nat)
    by (apply nth_error_Some; congruence).
  assert (Href : nth_error (vec_set (Canon.Results c) blockId v) (Z.to_nat blockId)
                 = Some v) by (now apply nth_error_vec_set_eq).
  split; [reflexivity|]. split; [exact Href|].
  destruct v as [|x v].
  - rewrite CheckOrSet_unset by assumption. cbn [Canon.Results].
    unfold vec_set. destruct (blockId <? 0); [reflexivity|].
    now rewrite set_nth_idem.
  - rewrite (@CheckOrSet_set {| Canon.Results := vec_set (Canon.Results c) blockId (x :: v) |}
               blockId (x :: v) (x :: v) Href) by discriminate.
    now rewrite Nat.eqb_refl, compare_from_diag.
Qed.

Lemma CheckOrSet_twice_witness :
  0 <= 1 /\ reference canon_nan 1 = Some []
  /\ snd (fst (Canon.CheckOrSet
                 (fst (fst (Canon.CheckOrSet canon_nan 1 [S754_nan; double_one])))
                 1 [S754_nan; double_one])) = [].
Proof.
  split; [lia|]. split; [reflexivity|].
  destruct (CheckOrSet_twice canon_nan 1 [S754_nan; double_one]) as [_ [_ H]];
    [lia | reflexivity|].
  now rewrite H.
Defined.

Lemma UpdateResult_history_witness :
  samples_of
    (UpdateResult_all [("B", Double.zero); ("A", double_one); ("B", double_two)]
       TResults_empty) "B"
  = [Double.zero; double_two].
Proof.
  destruct (UpdateResult_history
              [("B", Double.zero); ("A", double_one); ("B", double_two)]) as [H _].
  rewrite H. reflexivity.
Defined.

Lemma CheckOrSet_touches_one_block_witness :
  0 <= 1 < Z.of_nat (List.length (Canon.Results canon_nan))
  /\ nth_error (Canon.Results (fst (fst (Canon.CheckOrSet canon_nan 1 [double_one])))) 0
     = Some [S754_nan; double_one].
Proof.
  assert (Hrange : 0 <= 1 < Z.of_nat (List.length (Canon.Results canon_nan)))
    by (vm_compute; split; congruence).
  split; [exact Hrange|].
  destruct (CheckOrSet_touches_one_block canon_nan 1 [double_one] Hrange) as [_ [_ H]].
  rewrite (H 0%nat); [reflexivity | vm_compute; congruence].
Defined.

(** ** The comparison of [CheckOrSet] is symmetric *)

Section RoundSign.
Variables prec emax : Z.

Lemma abs_binary_round_aux (s : bool) (mx ex : Z) (lx : location) :
  SFabs (binary_round_aux prec emax s mx ex lx)
  = SFabs (binary_round_aux prec emax false mx ex lx).
Proof.
  unfold binary_round_aux.
  destruct (shr_fexp prec emax mx ex lx) as [mrs' e'].
  destruct (shr_fexp prec emax _ e' loc_Exact) as [mrs'' e''].
  destruct (shr_m mrs''); try reflexivity.
  destruct (Z.leb e'' (Z.sub emax prec)); reflexivity.
Qed.

Lemma abs_binary_round (s : bool) (m : positive) (e : Z) :
  SFabs (binary_round prec emax s m e) = SFabs (binary_round prec emax false m e).
Proof.
  unfold binary_round.
  destruct (shl_align m e _) as [mz ez]. apply abs_binary_round_aux.
Qed.

Lemma abs_binary_normalize_opp (z e : Z) :
  SFabs (binary_normalize prec emax (- z) e false)
  = SFabs (binary_normalize prec emax z e false).
Proof.
  destruct z as [|m|m]; cbn [Z.opp binary_normalize]; [reflexivity| |].
  - apply abs_binary_round.
  - symmetry. apply abs_binary_round.
Qed.

Lemma abs_SFsub_sym (x r : spec_float) :
  SFabs (SFsub prec emax x r) = SFabs (SFsub prec emax r x).
Proof.
  destruct x as [sx|sx| |sx mx ex], r as [sr|sr| |sr mr er];
    try reflexivity;
    try (destruct sx, sr; reflexivity);
    try (destruct sx; reflexivity);
    try (destruct sr; reflexivity).
  unfold SFsub. rewrite (Z.min_comm er ex).
  rewrite <- abs_binary_normalize_opp. f_equal. f_equal. ring.
Qed.
End RoundSign.

Lemma exceeds_sym (x r : double) : Canon.exceeds x r = Canon.exceeds r x.
Proof.
  unfold Canon.exceeds, Double.abs, Double.sub.
  now rewrite (abs_SFsub_sym Double.prec Double.emax x r).
Qed.

Lemma compare_from_sym (blockId : Z) (xs rs : list double) :
  forall i0 : Z,
    map Canon.diag_i (Canon.compare_from blockId i0 xs rs)
    = map Canon.diag_i (Canon.compare_from blockId i0 rs xs).
Proof.
  revert rs. induction xs as [|x xs IH]; intros [|r rs] i0; try reflexivity.
  cbn [Canon.compare_from]. rewrite !map_app, (IH rs), (exceeds_sym x r).
  destruct (Canon.exceeds r x); reflexivity.
Qed.

(** X12: the comparison does not depend on which of two vectors is the
    reference.  For two vectors that are not empty, checking [v] against
    the reference [r] ends the same way and reports the same indices as
    checking [r] against the reference [v]. *)
Theorem CheckOrSet_is_symmetric (c1 c2 : Canon.TCanonData) (blockId : Z)
    (v r : list double) :
  v <> [] -> r <> [] ->
  reference c1 blockId = Some r ->
  reference c2 blockId = Some v ->
  let out1 := Canon.CheckOrSet c1 blockId v in
  let out2 := Canon.CheckOrSet c2 blockId r in
  snd out1 = snd out2
  /\ map Canon.diag_i (snd (fst out1)) = map Canon.diag_i (snd (fst out2))
  /\ forall x y, Canon.exceeds x y = Canon.exceeds y x.
Proof.
  intros Hv Hr H1 H2. cbv zeta.
  rewrite (@CheckOrSet_set c1 blockId v r H1 Hr).
  rewrite (@CheckOrSet_set c2 blockId r v H2 Hv).
  rewrite (Nat.eqb_sym (List.length r) (List.length v)).
  destruct (Nat.eqb (List.length v) (List.length r)); cbn [fst snd].
  - split; [reflexivity|]. split; [apply compare_from_sym | apply exceeds_sym].
  - split; [reflexivity|]. split; [reflexivity | apply exceeds_sym].
Qed.

Lemma CheckOrSet_is_symmetric_witness :
  map Canon.diag_i
    (snd (fst (Canon.CheckOrSet {| Canon.Results := [[double_one; double_two]] |} 0
                 [double_one; double_one])))
  = map Canon.diag_i
      (snd (fst (Canon.CheckOrSet {| Canon.Results := [[double_one; double_one]] |} 0
                   [double_one; double_two]))).
Proof.
  destruct (CheckOrSet_is_symmetric
              {| Canon.Results := [[double_one; double_two]] |}
              {| Canon.Results := [[double_one; double_one]] |} 0
              [double_one; double_one] [double_one; double_two]) as [_ [H _]].
  - discriminate.
  - discriminate.
  - reflexivity.
  - reflexivity.
  - exact H.
Defined.

(** ** The documents that the blocks leave out, the shape of the views *)

Lemma in_block_range (BlockSize' docsCount b d : Z) :
  0 < BlockSize' <= docsCount -> docsCount < size_t_modulus ->
  0 <= b < blockCount_of BlockSize' docsCount ->
  in_block BlockSize' docsCount b d
  <-> b * BlockSize' <= d < b * BlockSize' + BlockSize'.
Proof.
  intros HB Hdocs Hb. unfold in_block.
  destruct (@blockStart_exact BlockSize' docsCount HB Hdocs b Hb) as [-> _].
  rewrite (@docsInCurrBlock_full BlockSize' docsCount HB Hdocs b Hb). lia.
Qed.

Lemma documents_sum {A : Type} (g : Z -> list A) (c : Z) (l : list Z) :
  (forall b, In b l -> Z.of_nat (List.length (g b)) = c) ->
  fold_right (fun block acc => Z.of_nat (List.length block) + acc) 0 (map g l)
  = Z.of_nat (List.length l) * c.
Proof.
  induction l as [|b l IH]; intros Hall; [reflexivity|].
  cbn [map fold_right List.length]. rewrite IH by (intros b' Hb'; apply Hall; now right).
  rewrite (Hall b (or_introl eq_refl)). lia.
Qed.

(** X13: the blocks that [DoMain] builds hold
    [docsCount - docsCount mod blockSize] documents, which are the first
    ones: document [d] below that number is at position [d mod blockSize]
    of block [d / blockSize].  So the last [docsCount mod blockSize]
    documents are in no block, and every document is in a block exactly when
    the block size divides the number of documents.  With a configured
    block size of at least the number of documents, as by default, one
    block is built and it holds every document. *)
Theorem dropped_documents (World TFullModel : Type) (options : TCMDOptions)
    (model : TFullModel) (dataset : TDataProvider)
    (factory : TPerftestModuleFactory World TFullModel) (w : World)
    (blocks : TBlocks) (getFeatureDataBeginPtr : Z -> Z -> float) :
  is_ui32 (GetObjectCount dataset) ->
  is_ui32 (GetFeatureCount dataset) ->
  RawObjectsData dataset = Some getFeatureDataBeginPtr ->
  run_blocks (DoMain options model dataset factory w) = Some blocks ->
  let B := effectiveBlockSize options dataset in
  let docs := GetObjectCount dataset in
  documents_held blocks = docs - docs mod B
  /\ (documents_held blocks = docs <-> docs mod B = 0)
  /\ (forall d f,
        0 <= d < docs - docs mod B -> 0 <= f < GetFeatureCount dataset ->
        vec_get float_zero
          (vec_get [] (vec_get [] (nonTransposedPool blocks) (d / B)) (d mod B)) f
        = getFeatureDataBeginPtr f d
        /\ data (vec_get TConstArrayRef_empty
                   (vec_get [] (transpFactorsRef blocks) (d / B)) f) (d mod B)
           = getFeatureDataBeginPtr f d)
  /\ (docs <= BlockSize options ->
      List.length (nonTransposedPool blocks) = 1%nat
      /\ documents_held blocks = docs).
Proof.
  intros Hd Hf Hraw Hrun. cbv zeta.
  apply DoMain_blocks in Hrun. destruct Hrun as [ptr [Hptr [Hpos ->]]].
  rewrite Hraw in Hptr. injection Hptr as <-.
  destruct (@effectiveBlockSize_bounds options dataset Hd Hpos) as [HB Hdocs].
  assert (HBmin : effectiveBlockSize options dataset
                  = Z.min (BlockSize options) (GetObjectCount dataset)) by reflexivity.
  destruct (build_blocks_spec getFeatureDataBeginPtr
              (effectiveBlockSize options dataset) (GetObjectCount dataset)
              (GetFeatureCount dataset)
              (blockCount_of (effectiveBlockSize options dataset)
                 (GetObjectCount dataset))) as [Hpool [_ Htransp]].
  pose proof (Z.div_mod (GetObjectCount dataset) (effectiveBlockSize options dataset)
                ltac:(lia)) as Hdm.
  pose proof (Z.mod_pos_bound (GetObjectCount dataset)
                (effectiveBlockSize options dataset) ltac:(lia)) as Hm.
  assert (Hn : blockCount_of (effectiveBlockSize options dataset) (GetObjectCount dataset)
               = GetObjectCount dataset / effectiveBlockSize options dataset)
    by reflexivity.
  assert (Hnn : 0 <= GetObjectCount dataset / effectiveBlockSize options dataset)
    by (apply Z.div_pos; lia).
  assert (Hheld : documents_held
                    (build_blocks getFeatureDataBeginPtr
                       (effectiveBlockSize options dataset) (GetObjectCount dataset)
                       (GetFeatureCount dataset)
                       (blockCount_of (effectiveBlockSize options dataset)
                          (GetObjectCount dataset)))
                  = GetObjectCount dataset
                    - GetObjectCount dataset mod effectiveBlockSize options dataset).
  { unfold documents_held. rewrite Hpool.
    rewrite (documents_sum _ (effectiveBlockSize options dataset)).
    - rewrite indices_length, Hn, Z2Nat.id by exact Hnn. lia.
    - intros b Hb. apply in_indices in Hb.
      rewrite build_nonTransp_pool, length_map, indices_length.
      rewrite (@docsInCurrBlock_full _ _ HB Hdocs b Hb). lia. }
  split; [exact Hheld|]. split; [rewrite Hheld; lia|]. split.
  - intros d f Hdr Hfr.
    pose proof (Z.div_mod d (effectiveBlockSize options dataset) ltac:(lia)) as Hdm'.
    pose proof (Z.mod_pos_bound d (effectiveBlockSize options dataset) ltac:(lia)) as Hm'.
    assert (Hb : 0 <= d / effectiveBlockSize options dataset
                 < blockCount_of (effectiveBlockSize options dataset)
                     (GetObjectCount dataset)).
    { rewrite Hn. split; [apply Z.div_pos; lia|].
      apply Z.div_lt_upper_bound; [lia|]. nia. }
    destruct (@blockStart_exact _ _ HB Hdocs _ Hb) as [Hstart _].
    rewrite Hpool, Htransp. rewrite !vec_get_map_indices by exact Hb.
    rewrite build_nonTransp_pool, build_transp_spec.
    rewrite (@docsInCurrBlock_full _ _ HB Hdocs _ Hb).
    rewrite !vec_get_map_indices by assumption.
    rewrite build_docFacs_spec. unfold MakeArrayRef_ptr, ptr_add. cbn [data].
    rewrite !vec_get_map_indices by exact Hfr.
    rewrite (to_ui32_small (n := f)) by (unfold is_ui32 in Hf; lia).
    rewrite Hstart.
    replace (effectiveBlockSize options dataset
             * (d / effectiveBlockSize options dataset)
             + d mod effectiveBlockSize options dataset) with d by lia.
    split; reflexivity.
  - intros Hle.
    assert (HBd : effectiveBlockSize options dataset = GetObjectCount dataset) by lia.
    split.
    + rewrite Hpool, length_map, indices_length, Hn, HBd, Z.div_same by lia.
      reflexivity.
    + rewrite Hheld, HBd, Z.mod_same by lia. lia.
Qed.

Lemma dropped_documents_witness :
  exists blocks,
    is_ui32 (GetObjectCount (example_pool 10))
    /\ is_ui32 (GetFeatureCount (example_pool 10))
    /\ run_blocks (DoMain (example_options 3 1) tt (example_pool 10) factory_ABC 0%nat)
       = Some blocks
    /\ documents_held blocks = 9.
Proof.
  assert (Hd : is_ui32 (GetObjectCount (example_pool 10))) by (vm_compute; split; congruence).
  assert (Hf : is_ui32 (GetFeatureCount (example_pool 10))) by (vm_compute; split; congruence).
  assert (Hp : 0 < effectiveBlockSize (example_options 3 1) (example_pool 10))
    by (vm_compute; reflexivity).
  pose proof (@DoMain_builds nat unit (example_options 3 1) tt (example_pool 10)
                factory_ABC 0%nat _ eq_refl Hp) as Hrun.
  eexists. split; [exact Hd|]. split; [exact Hf|]. split; [exact Hrun|].
  destruct (dropped_documents nat unit (example_options 3 1) tt (example_pool 10)
              factory_ABC 0%nat _ _ Hd Hf eq_refl Hrun) as [H _].
  exact H.
Defined.

(** X14: the views that [DoMain] builds have one entry per block; in every
    block there is one features-first view per feature, and every
    per-document vector and every objects-first view has one entry per
    feature. *)
Theorem views_shape (World TFullModel : Type) (options : TCMDOptions)
    (model : TFullModel) (dataset : TDataProvider)
    (factory : TPerftestModuleFactory World TFullModel) (w : World)
    (blocks : TBlocks) :
  run_blocks (DoMain options model dataset factory w) = Some blocks ->
  let blockCount :=
    blockCount_of (effectiveBlockSize options dataset) (GetObjectCount dataset) in
  let factorsCount := Z.to_nat (GetFeatureCount dataset) in
  List.length (nonTransposedPool blocks) = Z.to_nat blockCount
  /\ List.length (nonTranspFactorsRef blocks) = Z.to_nat blockCount
  /\ List.length (transpFactorsRef blocks) = Z.to_nat blockCount
  /\ forall blockId, 0 <= blockId < blockCount ->
       List.length (vec_get [] (transpFactorsRef blocks) blockId) = factorsCount
       /\ (forall docFacs, In docFacs (vec_get [] (nonTransposedPool blocks) blockId) ->
             List.length docFacs = factorsCount)
       /\ (forall ref, In ref (vec_get [] (nonTranspFactorsRef blocks) blockId) ->
             size ref = Z.of_nat factorsCount).
Proof.
  intros Hrun. cbv zeta.
  apply DoMain_blocks in Hrun. destruct Hrun as [ptr [_ [_ ->]]].
  destruct (build_blocks_spec ptr (effectiveBlockSize options dataset)
              (GetObjectCount dataset) (GetFeatureCount dataset)
              (blockCount_of (effectiveBlockSize options dataset)
                 (GetObjectCount dataset))) as [Hpool [Hrefs Htransp]].
  rewrite Hpool, Hrefs, Htransp. rewrite !length_map, !indices_length.
  repeat split; try reflexivity.
  - rewrite vec_get_map_indices by assumption.
    now rewrite build_transp_spec, length_map, indices_length.
  - intros docFacs Hin. rewrite vec_get_map_indices in Hin by assumption.
    rewrite build_nonTransp_pool in Hin. apply in_map_iff in Hin.
    destruct Hin as [docId [<- _]].
    now rewrite build_docFacs_spec, length_map, indices_length.
  - intros ref Hin. rewrite vec_get_map_indices in Hin by assumption.
    rewrite build_nonTransp_refs in Hin. apply in_map_iff in Hin.
    destruct Hin as [docId [<- _]]. unfold MakeArrayRef. cbn [size].
    now rewrite build_docFacs_spec, length_map, indices_length.
Qed.

Lemma views_shape_witness :
  exists blocks,
    run_blocks (DoMain (example_options 3 1) tt (example_pool 10) factory_ABC 0%nat)
    = Some blocks
    /\ List.length (transpFactorsRef blocks) = 3%nat.
Proof.
  assert (Hpos : 0 < effectiveBlockSize (example_options 3 1) (example_pool 10))
    by (vm_compute; reflexivity).
  destruct (@DoMain_reached nat unit (example_options 3 1) tt (example_pool 10)
              factory_ABC 0%nat _ eq_refl Hpos) as [_ [_ [_ [_ [_ [_ [_ [_ Hrun]]]]]]]].
  eexists. split; [exact Hrun|].
  destruct (views_shape nat unit (example_options 3 1) tt (example_pool 10)
              factory_ABC 0%nat _ Hrun) as [_ [_ [H _]]].
  exact H.
Defined.
